(** * cdk-demo: the declared REST endpoint and its entry points

    A shallow embedding of
      - [bin/cdk-demo.ts]           (entry point, account/region from the
                                     process environment),
      - the second entry-point variant (account/region hard-coded),
      - [lib/stacks/api-stack.ts]   (the [ApiStack] constructor).

    These files are calls into the construct library, Node and the managed
    platform, none of which is part of the repository. The stand-ins below
    keep what the statements are about: the constructs the repository's
    code names, the checks the library makes on the ids and the entry file
    it is given, POSIX [path.join], the front door's method dispatch. The
    library registers further constructs of its own (roles, permissions,
    deployment, stage), bundles the handler and may fail for reasons of its
    own; none of that is modelled, and no statement below says that a run
    succeeds except at a concrete example. *)

From Stdlib Require Import ZArith String Ascii List Lia Bool.
From stdpp Require Import base strings gmap list.

Local Open Scope string_scope.
Local Open Scope list_scope.
Local Open Scope Z_scope.

(** ** POSIX paths: [path.join] as the stack uses it *)

Module PosixPath.

Definition slash : ascii := "/"%char.

(** [s.split('/')] *)
Fixpoint split (s : string) : list string :=
  match s with
  | EmptyString => [EmptyString]
  | String c rest =>
      if Ascii.eqb c slash then EmptyString :: split rest
      else match split rest with
           | seg :: segs => String c seg :: segs
           | [] => [String c EmptyString]
           end
  end.

Fixpoint unsplit (segs : list string) : string :=
  match segs with
  | [] => EmptyString
  | [seg] => seg
  | seg :: rest => seg +:+ "/" +:+ unsplit rest
  end.

(** One step of [normalizeString]: [acc] is the stack of kept segments,
    most recent first. Empty and [.] segments vanish, [..] removes the
    segment before it, or is kept when there is none and the path is
    relative. *)
Definition push_segment (allowAboveRoot : bool) (acc : list string) (seg : string)
  : list string :=
  if String.eqb seg EmptyString || String.eqb seg "." then acc
  else if String.eqb seg ".." then
    match acc with
    | top :: below =>
        if String.eqb top ".." then seg :: acc else below
    | [] => if allowAboveRoot then [seg] else []
    end
  else seg :: acc.

Definition normalizeString (path : string) (allowAboveRoot : bool) : string :=
  unsplit (rev (fold_left (push_segment allowAboveRoot) (split path) [])).

Definition starts_with_slash (s : string) : bool :=
  match s with
  | String c _ => Ascii.eqb c slash
  | EmptyString => false
  end.

Fixpoint ends_with_slash (s : string) : bool :=
  match s with
  | EmptyString => false
  | String c EmptyString => Ascii.eqb c slash
  | String _ rest => ends_with_slash rest
  end.

Definition normalize (path : string) : string :=
  if String.eqb path EmptyString then "."
  else
    let isAbsolute := starts_with_slash path in
    let trailingSeparator := ends_with_slash path in
    let body := normalizeString path (negb isAbsolute) in
    if String.eqb body EmptyString then
      if isAbsolute then "/" else if trailingSeparator then "./" else "."
    else
      let body := if trailingSeparator then body +:+ "/" else body in
      if isAbsolute then "/" +:+ body else body.

(** [path.join(a, b)]: the non-empty arguments separated by [/], then
    normalised. *)
Definition join (a b : string) : string :=
  let joined :=
    if String.eqb a EmptyString then b
    else if String.eqb b EmptyString then a
    else a +:+ "/" +:+ b in
  if String.eqb joined EmptyString then "." else normalize joined.

End PosixPath.

(** ** The synthesis process and the construct tree *)

(** What a run can observe of the process that executes it:
    [process.cwd()]; [process.env]; the context the toolkit hands over (from
    [--context key=value] and [cdk.json], as the JSON text of the variable
    CDK_CONTEXT_JSON), [None] when that text is not valid JSON;
    [fs.existsSync]. *)
Record Process := {
  cwd : string;
  env : gmap string string;
  context : option (gmap string string);
  existsSync : string -> bool;
}.

(** [StackProps.env] *)
Record Environment := {
  account : option string;
  region : option string;
}.

(** [StackProps]: of its fields the entry points only set [env]. *)
Record StackProps := {
  props_env : option Environment;
}.

Inductive Runtime := NODEJS_16_X | NODEJS_18_X | NODEJS_20_X | NODEJS_22_X.

Record NodejsFunctionProps := {
  entry : string;
  runtime : Runtime;
  memorySize : Z;
}.

Record CorsOptions := {
  allowOrigins : list string;
  allowMethods : list string;
}.

Module Cors.
Definition ALL_ORIGINS : list string := ["*"].
Definition ALL_METHODS : list string :=
  ["OPTIONS"; "GET"; "PUT"; "POST"; "DELETE"; "PATCH"; "HEAD"].
End Cors.

Record RestApiProps := {
  restApiName : string;
  defaultCorsPreflightOptions : option CorsOptions;
}.

(** A construct is named by its path from the [App], outermost id first. A
    scope argument is the path of a construct the caller holds. *)
Definition Path := list string.

(** The integration behind a method: the compute function it invokes, or
    the front door's own canned answer (the CORS preflight). *)
Inductive Integration :=
| LambdaIntegration (fn : Path)
| MockIntegration (cors : CorsOptions).

(** A string that is only known at deployment: here the base URL of a REST
    API ([api.url]). *)
Inductive Token :=
| Literal (s : string)
| UrlOf (api : Path).

Record CfnOutputProps := {
  value : Token;
  description : option string;
}.

Inductive Resource :=
| AppRoot
| StackResource (props : option StackProps)
| NodejsFunction (props : NodejsFunctionProps)
| RestApi (props : RestApiProps)
| Method (httpMethod : string) (integration : Integration)
| CfnOutput (props : CfnOutputProps).

Record Construct := {
  node_path : Path;
  resource : Resource;
}.

(** One call of [console.log(label, object)]: its two arguments. *)
Record ConsoleLine := {
  label : string;
  logged : Environment;
}.

(** The state a run threads: the constructs registered so far, in creation
    order, and the lines the repository's own [console.log] calls wrote. *)
Record World := {
  constructs : list Construct;
  console : list ConsoleLine;
}.

Definition empty_world : World := {| constructs := []; console := [] |}.

Definition add_construct (c : Construct) (w : World) : World :=
  {| constructs := constructs w ++ [c]; console := console w |}.

Definition add_console (line : ConsoleLine) (w : World) : World :=
  {| constructs := constructs w; console := console w ++ [line] |}.

(** What the modelled library calls throw. [NameCollision] and [EmptyId]
    carry the scope and id of the refused call. *)
Inductive Error :=
| NameCollision (scope : Path) (id : string)
| EmptyId (scope : Path)
| InvalidStackName (name : string)
| EntryNotFound (entry : string)
| InvalidContext.

Inductive Result (A : Type) :=
| Ok (a : A)
| Throw (e : Error).
Arguments Ok {A} a.
Arguments Throw {A} e.

(** Constructors and methods of the construct library run in a state and
    exception monad over [World]. *)
Definition M (A : Type) : Type := World -> Result (A * World).

#[global] Instance M_ret : MRet M := fun A a w => Ok (a, w).
#[global] Instance M_bind : MBind M := fun A B f m w =>
  match m w with
  | Ok (a, w') => f a w'
  | Throw e => Throw e
  end.

Definition throw {A} (e : Error) : M A := fun _ => Throw e.
Definition get_world : M World := fun w => Ok (w, w).
Definition put_world (w : World) : M unit := fun _ => Ok (tt, w).

Definition exec {A} (m : M A) (w : World) : Result World :=
  match m w with
  | Ok (_, w') => Ok w'
  | Throw e => Throw e
  end.

#[global] Instance Path_eq_dec : EqDecision Path := _.

Definition registered (p : Path) (w : World) : bool :=
  existsb (fun c => bool_decide (node_path c = p)) (constructs w).

(** The library keeps [/] for paths: in an id it becomes [--]. *)
Fixpoint sanitizeId (id : string) : string :=
  match id with
  | EmptyString => EmptyString
  | String c rest =>
      if Ascii.eqb c "/" then String "-" (String "-" (sanitizeId rest))
      else String c (sanitizeId rest)
  end.

(** [new C(scope, id, ...)]: the construct registers itself under [scope]
    with its sanitised id; an empty id is refused, and so is an id already
    used there. *)
Definition new_construct (scope : Path) (id : string) (r : Resource) : M Path :=
  w ← get_world;
  if String.eqb id EmptyString then throw (EmptyId scope)
  else
    let p := scope ++ [sanitizeId id] in
    if registered p w then throw (NameCollision scope id)
    else
      put_world (add_construct {| node_path := p; resource := r |} w);;
      mret p.

(** [new cdk.App()] is the root of the tree, with the empty path. It reads
    the context and fails when the context is not valid JSON. *)
Definition new_App (proc : Process) : M Path :=
  w ← get_world;
  match context proc with
  | None => throw InvalidContext
  | Some _ =>
      put_world (add_construct {| node_path := []; resource := AppRoot |} w);;
      mret []
  end.

(** Stack names: a letter, then letters, digits and hyphens. *)
Definition is_letter (c : ascii) : bool :=
  let n := N_of_ascii c in
  ((65 <=? n) && (n <=? 90) || (97 <=? n) && (n <=? 122))%N.

Definition is_digit (c : ascii) : bool :=
  let n := N_of_ascii c in ((48 <=? n) && (n <=? 57))%N.

Fixpoint name_tail_ok (s : string) : bool :=
  match s with
  | EmptyString => true
  | String c rest => (is_letter c || is_digit c || Ascii.eqb c "-") && name_tail_ok rest
  end.

Definition valid_stack_name (name : string) : bool :=
  match name with
  | EmptyString => false
  | String c rest => is_letter c && name_tail_ok rest
  end.

(** The name the library gives a stack built directly under the app is its
    id, which must then be a valid stack name. For a longer id, or a stack
    built deeper in the tree, the library derives the name from the path
    and a hash; that derivation is not modelled and no check is made. *)
Definition stack_name_ok (scope : Path) (id : string) : bool :=
  match scope with
  | [] =>
      let name := sanitizeId id in
      if (String.length name <=? 128)%nat then valid_stack_name name else true
  | _ :: _ => true
  end.

(** [new Stack(scope, id, props)]: registration first, then the check of
    the stack name. *)
Definition new_Stack (scope : Path) (id : string) (props : option StackProps) : M Path :=
  this ← new_construct scope id (StackResource props);
  if stack_name_ok scope id then mret this
  else throw (InvalidStackName (sanitizeId id)).

(** [new NodejsFunction(scope, id, props)] looks for the entry file before
    it registers anything and fails when the file is not there. (It then
    looks for a lock file, bundles the handler with an external tool and
    stages the bundle as an asset, writing files and diagnostics as it
    goes; each step can fail, the staging for instance for a literal
    account or region that gives no valid bucket name. None of that is
    modelled.) *)
Definition new_NodejsFunction (proc : Process) (scope : Path) (id : string)
    (props : NodejsFunctionProps) : M Path :=
  if existsSync proc (entry props) then new_construct scope id (NodejsFunction props)
  else throw (EntryNotFound (entry props)).

(** The root resource of a REST API is its child [Default]. *)
Definition root (api : Path) : Path := api ++ ["Default"].

(** [resource.addMethod(httpMethod, integration)] creates the method as the
    child of the resource named after the HTTP method. *)
Definition addMethod (res : Path) (httpMethod : string) (integration : Integration)
  : M Path :=
  new_construct res httpMethod (Method httpMethod integration).

Definition url (api : Path) : Token := UrlOf api.

Definition new_CfnOutput (scope : Path) (id : string) (props : CfnOutputProps) : M Path :=
  new_construct scope id (CfnOutput props).

(** [new RestApi(scope, id, props)]. The API is deployed by default, and
    with the deployment comes the output [Endpoint] with the API's URL.
    With [defaultCorsPreflightOptions] the root resource gets its CORS
    preflight at once: an [OPTIONS] method answered by a mock integration.
    (The REST API resource itself, the deployment, the stage and the
    logging role the library also creates are not modelled.) *)
Definition new_RestApi (scope : Path) (id : string) (props : RestApiProps) : M Path :=
  api ← new_construct scope id (RestApi props);
  new_CfnOutput api "Endpoint" {| value := url api; description := None |};;
  match defaultCorsPreflightOptions props with
  | Some cors => addMethod (root api) "OPTIONS" (MockIntegration cors);; mret api
  | None => mret api
  end.

Definition console_log (label : string) (e : Environment) : M unit :=
  w ← get_world;
  put_world (add_console {| label := label; logged := e |} w).

(** ** [lib/stacks/api-stack.ts] *)

Definition ApiStack (proc : Process) (scope : Path) (id : string)
    (props : option StackProps) : M Path :=
  this ← new_Stack scope id props;
  helloFn ← new_NodejsFunction proc this "HelloFunction"
    {| entry := PosixPath.join (cwd proc) "src/handlers/hello-world/index.ts";
       runtime := NODEJS_20_X;
       memorySize := 256 |};
  api ← new_RestApi this "ServiceApi"
    {| restApiName := "Lambda Api";
       defaultCorsPreflightOptions :=
         Some {| allowOrigins := Cors.ALL_ORIGINS;
                 allowMethods := Cors.ALL_METHODS |} |};
  let helloIntegration := LambdaIntegration helloFn in
  addMethod (root api) "GET" helloIntegration;;
  new_CfnOutput this "ApiUrl"
    {| value := url api;
       description := Some "Base URL of the REST API" |};;
  mret this.

(** ** The two entry points *)

(** [bin/cdk-demo.ts]: account and region come from the process
    environment and are printed before the stack is built. *)
Definition main_env (proc : Process) : M Path :=
  app ← new_App proc;
  console_log
    "{ account: process.env.CDK_DEFAULT_ACCOUNT, region: process.env.AWS_REGION }"
    {| account := env proc !! "CDK_DEFAULT_ACCOUNT"; region := env proc !! "AWS_REGION" |};;
  ApiStack proc app "ApiStack"
    (Some {| props_env :=
               Some {| account := env proc !! "CDK_DEFAULT_ACCOUNT";
                       region := env proc !! "AWS_REGION" |} |}).

(** The other variant: account and region are written in the file. *)
Definition main_hardcoded (proc : Process) : M Path :=
  app ← new_App proc;
  ApiStack proc app "ApiStack"
    (Some {| props_env :=
               Some {| account := Some "339713054130";
                       region := Some "ap-south-1" |} |}).

Inductive EntryPoint := CdkDemo | Hardcoded.

Definition entry_point (e : EntryPoint) : Process -> M Path :=
  match e with
  | CdkDemo => main_env
  | Hardcoded => main_hardcoded
  end.

(** ** Reading the construct tree *)

Fixpoint is_prefix (p q : Path) : bool :=
  match p, q with
  | [], _ => true
  | a :: p', b :: q' => String.eqb a b && is_prefix p' q'
  | _ :: _, [] => false
  end.

(** Nothing is registered yet at [p] or below it. *)
Definition is_fresh (p : Path) (w : World) : bool :=
  forallb (fun c => negb (is_prefix p (node_path c))) (constructs w).

(** The constructs strictly below [scope], in creation order: what the
    resource-definition unit [scope] declares. *)
Definition below (scope : Path) (c : Construct) : bool :=
  is_prefix scope (node_path c) && negb (bool_decide (node_path c = scope)).

Definition declared_resources (scope : Path) (w : World) : list Construct :=
  filter (fun c => below scope c = true) (constructs w).

Definition is_stack (c : Construct) : bool :=
  match resource c with StackResource _ => true | _ => false end.
Definition is_function (c : Construct) : bool :=
  match resource c with NodejsFunction _ => true | _ => false end.
Definition is_rest_api (c : Construct) : bool :=
  match resource c with RestApi _ => true | _ => false end.
Definition is_method (c : Construct) : bool :=
  match resource c with Method _ _ => true | _ => false end.
Definition is_output (c : Construct) : bool :=
  match resource c with CfnOutput _ => true | _ => false end.

Definition count (f : Construct -> bool) (cs : list Construct) : nat :=
  length (filter (fun c => f c = true) cs).

Definition stacks (w : World) : list Construct :=
  filter (fun c => is_stack c = true) (constructs w).

(** [stack.account] and [stack.region] as declared: [props?.env?.account]
    and [props?.env?.region]. *)
Definition declared_env (props : option StackProps) : Environment :=
  match props with
  | Some {| props_env := Some e |} => e
  | _ => {| account := None; region := None |}
  end.

Definition stack_env (c : Construct) : option Environment :=
  match resource c with
  | StackResource props => Some (declared_env props)
  | _ => None
  end.

(** ** The front door *)

(** The methods bound on a resource of the API, in creation order. *)
Definition methods_on (w : World) (res : Path) : list (string * Integration) :=
  omap (fun c =>
          match resource c with
          | Method m i =>
              if bool_decide (node_path c = res ++ [m]) then Some (m, i) else None
          | _ => None
          end) (constructs w).

Definition bound_method (w : World) (res : Path) (httpMethod : string)
  : option Integration :=
  snd <$> List.find (fun mi => String.eqb (fst mi) httpMethod) (methods_on w res).

Inductive Dispatch :=
| Invoke (fn : Path)
| Preflight (cors : CorsOptions)
| Rejected.

(** Modelled from the spec: the front door is the managed HTTP routing
    layer of the platform (the API gateway), not code of this repository.
    What it does with a request on the root resource: hand it to the
    compute function bound to the method, answer the CORS preflight itself,
    or refuse a method that has no binding. *)
Definition front_door (w : World) (api : Path) (httpMethod : string) : Dispatch :=
  match bound_method w (root api) httpMethod with
  | Some (LambdaIntegration fn) => Invoke fn
  | Some (MockIntegration cors) => Preflight cors
  | None => Rejected
  end.

(** ** The example configuration table

    The table of the repository's notes on multi-environment set-ups (the
    [configs] context of the sample [cdk.json]). Neither entry point reads
    it. *)
Record EnvironmentConfig := {
  cfg_account : string;
  cfg_region : string;
  dbName : string;
}.

Definition configs : gmap string EnvironmentConfig :=
  {[ "dev" := {| cfg_account := "111111111111"; cfg_region := "us-east-1"; dbName := "devdb" |};
     "test" := {| cfg_account := "222222222222"; cfg_region := "us-east-2"; dbName := "testdb" |};
     "prod" := {| cfg_account := "333333333333"; cfg_region := "us-west-2"; dbName := "proddb" |} ]}.

(** The environment selection of a run: [--context env=<name>]. *)
Definition selection (proc : Process) : option string :=
  match context proc with
  | Some ctx => ctx !! "env"
  | None => None
  end.

(** ** Time stamps: [Date.prototype.toISOString] *)

Module DateTime.

Definition msPerDay : Z := 86400000.

(** The range of time values of a [Date]. *)
Definition valid_time (t : Z) : Prop := -8640000000000000 <= t <= 8640000000000000.

(** Days since 1970-01-01 to a proleptic Gregorian (year, month, day). *)
Definition civil_from_days (z0 : Z) : Z * Z * Z :=
  let z := z0 + 719468 in
  let era := z / 146097 in
  let doe := z - era * 146097 in
  let yoe := (doe - doe / 1460 + doe / 36524 - doe / 146096) / 365 in
  let doy := doe - (365 * yoe + yoe / 4 - yoe / 100) in
  let mp := (5 * doy + 2) / 153 in
  let d := doy - (153 * mp + 2) / 5 + 1 in
  let m := if mp <? 10 then mp + 3 else mp - 9 in
  let y := yoe + era * 400 + (if m <=? 2 then 1 else 0) in
  (y, m, d).

Record Fields := {
  year : Z; month : Z; day : Z;
  hours : Z; minutes : Z; seconds : Z; millis : Z;
}.

Definition fields_of (t : Z) : Fields :=
  let '(y, m, d) := civil_from_days (t / msPerDay) in
  let r := t mod msPerDay in
  {| year := y; month := m; day := d;
     hours := r / 3600000;
     minutes := r / 60000 mod 60;
     seconds := r / 1000 mod 60;
     millis := r mod 1000 |}.

Definition digit_char (d : Z) : ascii := ascii_of_N (48 + Z.to_N d).

(** [n] on exactly [w] decimal digits, most significant first. *)
Fixpoint digits (w : nat) (n : Z) : string :=
  match w with
  | O => EmptyString
  | S w' => String (digit_char (n / 10 ^ Z.of_nat w')) (digits w' (n mod 10 ^ Z.of_nat w'))
  end.

(** Four digits for the years 0 to 9999, a sign and six digits otherwise. *)
Definition year_string (y : Z) : string :=
  if (0 <=? y) && (y <=? 9999) then digits 4 y
  else (if y <? 0 then "-" else "+") +:+ digits 6 (Z.abs y).

Definition format (f : Fields) : string :=
  year_string (year f) +:+ "-" +:+ digits 2 (month f) +:+ "-" +:+ digits 2 (day f)
    +:+ "T" +:+ digits 2 (hours f) +:+ ":" +:+ digits 2 (minutes f)
    +:+ ":" +:+ digits 2 (seconds f) +:+ "." +:+ digits 3 (millis f) +:+ "Z".

Definition toISOString (t : Z) : string := format (fields_of t).

(** *** Reading an ISO-8601 time stamp back *)

Definition digit_val (c : ascii) : option Z :=
  let n := Z.of_N (N_of_ascii c) in
  if (48 <=? n) && (n <=? 57) then Some (n - 48) else None.

Fixpoint read_digits (w : nat) (acc : Z) (s : string) : option (Z * string) :=
  match w with
  | O => Some (acc, s)
  | S w' =>
      match s with
      | String c rest =>
          match digit_val c with
          | Some d => read_digits w' (acc * 10 + d) rest
          | None => None
          end
      | EmptyString => None
      end
  end.

Definition expect (c : ascii) (s : string) : option string :=
  match s with
  | String c' rest => if Ascii.eqb c c' then Some rest else None
  | EmptyString => None
  end.

Definition read_year (s : string) : option (Z * string) :=
  match s with
  | String c rest =>
      if Ascii.eqb c "+" then read_digits 6 0 rest
      else if Ascii.eqb c "-" then
        '(y, rest') ← read_digits 6 0 rest; Some (- y, rest')
      else read_digits 4 0 s
  | EmptyString => None
  end.

Definition parse (s : string) : option Fields :=
  '(y, s) ← read_year s;
  s ← expect "-" s;
  '(mo, s) ← read_digits 2 0 s;
  s ← expect "-" s;
  '(d, s) ← read_digits 2 0 s;
  s ← expect "T" s;
  '(h, s) ← read_digits 2 0 s;
  s ← expect ":" s;
  '(mi, s) ← read_digits 2 0 s;
  s ← expect ":" s;
  '(se, s) ← read_digits 2 0 s;
  s ← expect "." s;
  '(ms, s) ← read_digits 3 0 s;
  s ← expect "Z" s;
  match s with
  | EmptyString =>
      Some {| year := y; month := mo; day := d;
              hours := h; minutes := mi; seconds := se; millis := ms |}
  | _ => None
  end.

(** *** The calendar, the other way round *)

Definition is_leap (y : Z) : bool :=
  (y mod 4 =? 0) && (negb (y mod 100 =? 0) || (y mod 400 =? 0)).

Definition days_in_month (y m : Z) : Z :=
  if m =? 2 then (if is_leap y then 29 else 28)
  else if (m =? 4) || (m =? 6) || (m =? 9) || (m =? 11) then 30 else 31.

(** A proleptic Gregorian (year, month, day) to days since 1970-01-01. *)
Definition days_from_civil (y m d : Z) : Z :=
  let y' := if m <=? 2 then y - 1 else y in
  let era := y' / 400 in
  let yoe := y' - era * 400 in
  let mp := if 2 <? m then m - 3 else m + 9 in
  let doy := (153 * mp + 2) / 5 + d - 1 in
  let doe := yoe * 365 + yoe / 4 - yoe / 100 + doy in
  era * 146097 + doe - 719468.

(** The time value a date and time of day stand for. *)
Definition time_of (f : Fields) : Z :=
  days_from_civil (year f) (month f) (day f) * msPerDay
  + hours f * 3600000 + minutes f * 60000 + seconds f * 1000 + millis f.

(** A date of the calendar and a time of the day. *)
Definition in_range (f : Fields) : bool :=
  (1 <=? month f) && (month f <=? 12)
  && (1 <=? day f) && (day f <=? days_in_month (year f) (month f))
  && (0 <=? hours f) && (hours f <=? 23) && (0 <=? minutes f) && (minutes f <=? 59)
  && (0 <=? seconds f) && (seconds f <=? 59) && (0 <=? millis f) && (millis f <=? 999).

Definition is_iso8601 (s : string) : bool :=
  match parse s with
  | Some f => in_range f
  | None => false
  end.

End DateTime.

(** ** The compute handler *)

(** The event the platform passes: any JSON value. *)
#[local] Unset Elimination Schemes.
Inductive JSON :=
| JNull
| JBool (b : bool)
| JNumber (n : Z)
| JString (s : string)
| JArray (items : list JSON)
| JObject (fields : list (string * JSON)).
#[local] Set Elimination Schemes.

Record APIGatewayProxyResult := {
  statusCode : Z;
  headers : list (string * string);
  body : string;
}.

Inductive Outcome :=
| Returned (r : APIGatewayProxyResult)
| Threw (message : string).

Definition greeting : string := "Hello from Lambda!".

Module JsonText.
Definition dq : string := String (ascii_of_nat 34) EmptyString.
Definition quoted (s : string) : string := dq +:+ s +:+ dq.

Fixpoint sep_by (sep : string) (l : list string) : string :=
  match l with
  | [] => EmptyString
  | [s] => s
  | s :: rest => s +:+ sep +:+ sep_by sep rest
  end.

Definition field (k v : string) : string := quoted k +:+ ":" +:+ v.
Definition object (fields : list string) : string :=
  "{" +:+ sep_by "," fields +:+ "}".
End JsonText.

(** [JSON.stringify] of an object whose fields are strings that need no
    escaping. *)
Definition JSON_stringify (fields : list (string * string)) : string :=
  JsonText.object ((fun kv => JsonText.field (fst kv) (JsonText.quoted (snd kv))) <$> fields).

(** The response payload: [{ message, timestamp }]. *)
Definition payload (now : Z) : list (string * string) :=
  [("message", greeting); ("timestamp", DateTime.toISOString now)].

(** Modelled from the spec: the handler's file,
    [src/handlers/hello-world/index.ts], is not among the sources at hand.
    On every invocation it answers 200 with the two headers and a JSON body
    holding the fixed greeting and the current time in ISO-8601 form; it
    does not look at the event. [now] is the clock, in milliseconds since
    the epoch. *)
Definition handler (now : Z) (event : JSON) : Outcome :=
  Returned {| statusCode := 200;
              headers := [("Content-Type", "application/json");
                          ("Access-Control-Allow-Origin", "*")];
              body := JSON_stringify (payload now) |}.

(** ** References between constructs *)

(** A construct refers to others by path: a method to the function behind
    its Lambda integration, an output to the API whose URL it exports.
    [resolves earlier c]: every such reference of [c] is the path of a
    construct of the right kind among [earlier]. *)
Definition resolves (earlier : list Construct) (c : Construct) : bool :=
  match resource c with
  | Method _ (LambdaIntegration fn) =>
      existsb (fun d => bool_decide (node_path d = fn) && is_function d) earlier
  | CfnOutput p =>
      match value p with
      | UrlOf api =>
          existsb (fun d => bool_decide (node_path d = api) && is_rest_api d) earlier
      | Literal _ => true
      end
  | _ => true
  end.

(** Every construct of [cs] only refers to constructs created before it,
    [earlier] being those created before [cs]. *)
Fixpoint declared_in_order (earlier cs : list Construct) : bool :=
  match cs with
  | [] => true
  | c :: rest => resolves earlier c && declared_in_order (earlier ++ [c]) rest
  end.

(** ** Path segments *)

Fixpoint has_slash (s : string) : bool :=
  match s with
  | EmptyString => false
  | String c rest => Ascii.eqb c PosixPath.slash || has_slash rest
  end.

(** A directory or file name: not empty, not [.] or [..], no slash in it. *)
Definition plain_segment (seg : string) : bool :=
  negb (String.eqb seg EmptyString) && negb (String.eqb seg ".")
  && negb (String.eqb seg "..") && negb (has_slash seg).

(** The segments [normalizeString] keeps are never empty and hold no
    slash. *)
Definition kept (seg : string) : Prop :=
  seg <> EmptyString /\ has_slash seg = false.

(** The segments followed by a slash each: the text of a directory prefix. *)
Fixpoint dir_prefix (segs : list string) : string :=
  match segs with
  | [] => EmptyString
  | seg :: rest => seg +:+ "/" +:+ dir_prefix rest
  end.

(** ** Sample runs and shorthands used in the statements *)

(** The account/region pair each entry point binds the stack to. *)
Definition process_binding (proc : Process) : Environment :=
  {| account := env proc !! "CDK_DEFAULT_ACCOUNT"; region := env proc !! "AWS_REGION" |}.

Definition hardcoded_binding : Environment :=
  {| account := Some "339713054130"; region := Some "ap-south-1" |}.

Definition binding (e : EntryPoint) (proc : Process) : Environment :=
  match e with
  | CdkDemo => process_binding proc
  | Hardcoded => hardcoded_binding
  end.

(** The line [bin/cdk-demo.ts] prints. *)
Definition diagnostic_line (proc : Process) : ConsoleLine :=
  {| label := "{ account: process.env.CDK_DEFAULT_ACCOUNT, region: process.env.AWS_REGION }";
     logged := process_binding proc |}.

(** The same process with another environment selection in its context. *)
Definition with_selection (sel : string) (proc : Process) : Process :=
  {| cwd := cwd proc; env := env proc;
     context := (fun ctx => <["env" := sel]> ctx) <$> context proc;
     existsSync := existsSync proc |}.

(** A checkout where the handler's file is in place. *)
Definition checkout (dir : string) (path : string) : bool :=
  String.eqb path (dir +:+ "/src/handlers/hello-world/index.ts").

(** [cdk deploy --context env=dev] from a checkout, no account or region
    variable set. *)
Definition proc_dev : Process :=
  {| cwd := "/home/dev/cdk-demo"; env := ∅; context := Some {[ "env" := "dev" ]};
     existsSync := checkout "/home/dev/cdk-demo" |}.

(** [cdk deploy --context env=qa]: a name the table does not have. *)
Definition proc_qa : Process :=
  {| cwd := "/home/dev/cdk-demo"; env := ∅; context := Some {[ "env" := "qa" ]};
     existsSync := checkout "/home/dev/cdk-demo" |}.

(** A pipeline run for [dev] with the account and region exported, and a
    different checkout directory. *)
Definition proc_pipeline : Process :=
  {| cwd := "/opt/atlassian/pipelines/agent/build";
     env := {[ "CDK_DEFAULT_ACCOUNT" := "111111111111"; "AWS_REGION" := "us-east-1" ]};
     context := Some {[ "env" := "dev" ]};
     existsSync := checkout "/opt/atlassian/pipelines/agent/build" |}.

Definition app_root : Construct := {| node_path := []; resource := AppRoot |}.

(** The constructs one run of [ApiStack] registers below [this], in
    creation order (lemma [ApiStack_eq] proves that this is what the
    constructor does when nothing stops it). *)
Definition unit_resources (proc : Process) (this : Path) : list Construct :=
  [ {| node_path := this ++ ["HelloFunction"];
       resource := NodejsFunction
         {| entry := PosixPath.join (cwd proc) "src/handlers/hello-world/index.ts";
            runtime := NODEJS_20_X;
            memorySize := 256 |} |};
    {| node_path := this ++ ["ServiceApi"];
       resource := RestApi
         {| restApiName := "Lambda Api";
            defaultCorsPreflightOptions :=
              Some {| allowOrigins := Cors.ALL_ORIGINS;
                      allowMethods := Cors.ALL_METHODS |} |} |};
    {| node_path := (this ++ ["ServiceApi"]) ++ ["Endpoint"];
       resource := CfnOutput
         {| value := UrlOf (this ++ ["ServiceApi"]); description := None |} |};
    {| node_path := root (this ++ ["ServiceApi"]) ++ ["OPTIONS"];
       resource := Method "OPTIONS"
         (MockIntegration {| allowOrigins := Cors.ALL_ORIGINS;
                             allowMethods := Cors.ALL_METHODS |}) |};
    {| node_path := root (this ++ ["ServiceApi"]) ++ ["GET"];
       resource := Method "GET" (LambdaIntegration (this ++ ["HelloFunction"])) |};
    {| node_path := this ++ ["ApiUrl"];
       resource := CfnOutput
         {| value := UrlOf (this ++ ["ServiceApi"]);
            description := Some "Base URL of the REST API" |} |} ].

Definition unit_constructs (proc : Process) (this : Path) (props : option StackProps)
  : list Construct :=
  {| node_path := this; resource := StackResource props |} :: unit_resources proc this.

Definition add_constructs (cs : list Construct) (w : World) : World :=
  {| constructs := constructs w ++ cs; console := console w |}.

(** * Properties *)

(** ** Paths *)

Example join_project :
  PosixPath.join "/home/dev/cdk-demo" "src/handlers/hello-world/index.ts"
  = "/home/dev/cdk-demo/src/handlers/hello-world/index.ts".
Proof. reflexivity. Qed.

Example join_root :
  PosixPath.join "/" "src/handlers/hello-world/index.ts"
  = "/src/handlers/hello-world/index.ts".
Proof. reflexivity. Qed.

Example join_dots :
  PosixPath.join "/a/b/../c/." "src/handlers/hello-world/index.ts"
  = "/a/c/src/handlers/hello-world/index.ts".
Proof. reflexivity. Qed.

Example sanitizeId_slash : sanitizeId "a/b" = "a--b".
Proof. reflexivity. Qed.

Example stack_names :
  valid_stack_name "ApiStack" = true /\ valid_stack_name "a--b" = true
  /\ valid_stack_name "Api_Stack" = false /\ valid_stack_name "1stack" = false
  /\ valid_stack_name "my stack" = false.
Proof. repeat split; reflexivity. Qed.

Lemma is_prefix_app (p q : Path) : is_prefix p (p ++ q) = true.
Proof.
  induction p as [|a p IH]; simpl; [reflexivity|].
  rewrite String.eqb_refl. exact IH.
Qed.

Lemma is_prefix_refl (p : Path) : is_prefix p p = true.
Proof. rewrite <- (app_nil_r p) at 2. apply is_prefix_app. Qed.

Lemma is_prefix_app_r (p q r : Path) :
  is_prefix p q = true -> is_prefix p (q ++ r) = true.
Proof.
  revert q. induction p as [|a p IH]; intros q H; [reflexivity|].
  destruct q as [|b q]; simpl in *; [discriminate|].
  apply andb_true_iff in H as [Hab Hpq].
  rewrite Hab. simpl. apply IH, Hpq.
Qed.

(** ** Registration *)

Lemma registered_add (p : Path) (c : Construct) (w : World) :
  registered p (add_construct c w) = registered p w || bool_decide (node_path c = p).
Proof.
  unfold registered, add_construct. simpl.
  rewrite existsb_app. simpl. rewrite orb_false_r. reflexivity.
Qed.

Lemma registered_elem (p : Path) (w : World) :
  registered p w = true <-> p ∈ (node_path <$> constructs w).
Proof.
  unfold registered. rewrite existsb_exists, list_elem_of_fmap. split.
  - intros (c & Hin & Hc). apply bool_decide_eq_true in Hc.
    exists c. split; [symmetry; exact Hc | apply list_elem_of_In, Hin].
  - intros (c & -> & Hin). exists c.
    split; [apply list_elem_of_In, Hin | apply bool_decide_eq_true; reflexivity].
Qed.

Lemma fresh_not_registered (p q : Path) (w : World) :
  is_fresh p w = true -> is_prefix p q = true -> registered q w = false.
Proof.
  unfold is_fresh, registered. intros Hfresh Hpq.
  induction (constructs w) as [|c cs IH]; simpl in *; [reflexivity|].
  apply andb_true_iff in Hfresh as [Hc Hcs].
  rewrite (IH Hcs), orb_false_r.
  apply bool_decide_eq_false. intros Heq. rewrite Heq, Hpq in Hc. discriminate.
Qed.

Lemma bind_run {A B} (m : M A) (f : A -> M B) (w : World) :
  (m ≫= f) w = match m w with Ok (a, w') => f a w' | Throw e => Throw e end.
Proof. reflexivity. Qed.

Lemma new_construct_eq (scope : Path) (id : string) (r : Resource) (w : World) :
  new_construct scope id r w
  = if String.eqb id EmptyString then Throw (EmptyId scope)
    else if registered (scope ++ [sanitizeId id]) w then Throw (NameCollision scope id)
    else Ok (scope ++ [sanitizeId id],
             add_construct {| node_path := scope ++ [sanitizeId id]; resource := r |} w).
Proof.
  unfold new_construct, mbind, M_bind, get_world. simpl.
  destruct (String.eqb id EmptyString); [reflexivity|].
  destruct (registered (scope ++ [sanitizeId id]) w); reflexivity.
Qed.

(** Two paths under the same scope differ as soon as their suffixes do. *)
Ltac path_neq :=
  let H := fresh in
  intros H; unfold root in H; rewrite <- ?app_assoc in H; simpl in H;
  first [ apply app_inv_head in H; discriminate H
        | apply (f_equal (@length string)) in H;
          rewrite ?length_app in H; simpl in H; lia ].

Ltac prefix_of_scope :=
  first [ apply is_prefix_refl | apply is_prefix_app_r; prefix_of_scope ].

Ltac registered_in_base :=
  rewrite ?registered_add;
  rewrite ?bool_decide_eq_false_2 by path_neq;
  rewrite ?orb_false_r.

(** ** The constructor, step by step *)

(** [ApiStack] stops at the first check that fails and otherwise registers
    its seven constructs. *)
Lemma ApiStack_eq (proc : Process) (scope : Path) (id : string)
    (props : option StackProps) (w : World) :
  ApiStack proc scope id props w
  = let this := scope ++ [sanitizeId id] in
    let api := this ++ ["ServiceApi"] in
    let handler_entry := PosixPath.join (cwd proc) "src/handlers/hello-world/index.ts" in
    if String.eqb id EmptyString then Throw (EmptyId scope)
    else if registered this w then Throw (NameCollision scope id)
    else if negb (stack_name_ok scope id) then Throw (InvalidStackName (sanitizeId id))
    else if negb (existsSync proc handler_entry) then Throw (EntryNotFound handler_entry)
    else if registered (this ++ ["HelloFunction"]) w
      then Throw (NameCollision this "HelloFunction")
    else if registered api w then Throw (NameCollision this "ServiceApi")
    else if registered (api ++ ["Endpoint"]) w then Throw (NameCollision api "Endpoint")
    else if registered (root api ++ ["OPTIONS"]) w
      then Throw (NameCollision (root api) "OPTIONS")
    else if registered (root api ++ ["GET"]) w
      then Throw (NameCollision (root api) "GET")
    else if registered (this ++ ["ApiUrl"]) w then Throw (NameCollision this "ApiUrl")
    else Ok (this, add_constructs (unit_constructs proc this props) w).
Proof.
  cbv zeta. unfold ApiStack, new_Stack, new_NodejsFunction, new_RestApi,
    new_CfnOutput, addMethod.
  rewrite bind_run, bind_run, new_construct_eq.
  destruct (String.eqb id EmptyString); [reflexivity|].
  destruct (registered (scope ++ [sanitizeId id]) w); [reflexivity|].
  destruct (stack_name_ok scope id); [|reflexivity].
  cbn [negb mret M_ret entry].
  destruct (existsSync proc _); [|reflexivity]. cbn [negb].
  rewrite bind_run, new_construct_eq. cbn [String.eqb sanitizeId Ascii.eqb Bool.eqb].
  registered_in_base.
  destruct (registered ((scope ++ [sanitizeId id]) ++ ["HelloFunction"]) w); [reflexivity|].
  rewrite bind_run, bind_run, new_construct_eq.
  cbn [String.eqb sanitizeId Ascii.eqb Bool.eqb]. registered_in_base.
  destruct (registered ((scope ++ [sanitizeId id]) ++ ["ServiceApi"]) w); [reflexivity|].
  rewrite bind_run, new_construct_eq.
  cbn [String.eqb sanitizeId Ascii.eqb Bool.eqb]. registered_in_base.
  destruct (registered (((scope ++ [sanitizeId id]) ++ ["ServiceApi"]) ++ ["Endpoint"]) w);
    [reflexivity|].
  cbn [defaultCorsPreflightOptions].
  rewrite bind_run, new_construct_eq.
  cbn [String.eqb sanitizeId Ascii.eqb Bool.eqb]. registered_in_base.
  destruct (registered (root ((scope ++ [sanitizeId id]) ++ ["ServiceApi"]) ++ ["OPTIONS"]) w);
    [reflexivity|].
  cbn [mret M_ret].
  rewrite bind_run, new_construct_eq.
  cbn [String.eqb sanitizeId Ascii.eqb Bool.eqb]. registered_in_base.
  destruct (registered (root ((scope ++ [sanitizeId id]) ++ ["ServiceApi"]) ++ ["GET"]) w);
    [reflexivity|].
  rewrite bind_run, new_construct_eq.
  cbn [String.eqb sanitizeId Ascii.eqb Bool.eqb]. registered_in_base.
  destruct (registered ((scope ++ [sanitizeId id]) ++ ["ApiUrl"]) w); [reflexivity|].
  unfold add_constructs, add_construct, unit_constructs, unit_resources, url. simpl.
  rewrite <- !app_assoc. reflexivity.
Qed.

Lemma unit_paths (proc : Process) (this : Path) (props : option StackProps) :
  node_path <$> unit_constructs proc this props
  = [ this; this ++ ["HelloFunction"]; this ++ ["ServiceApi"];
      (this ++ ["ServiceApi"]) ++ ["Endpoint"];
      root (this ++ ["ServiceApi"]) ++ ["OPTIONS"];
      root (this ++ ["ServiceApi"]) ++ ["GET"]; this ++ ["ApiUrl"] ].
Proof. reflexivity. Qed.

(** Reading a successful run backwards: the id was not empty, the paths
    were free, and the world is the old one with the constructs appended. *)
Lemma ApiStack_ok_inv (proc : Process) (scope : Path) (id : string)
    (props : option StackProps) (w w' : World) (this : Path) :
  ApiStack proc scope id props w = Ok (this, w') ->
  id <> EmptyString
  /\ this = scope ++ [sanitizeId id]
  /\ w' = add_constructs (unit_constructs proc (scope ++ [sanitizeId id]) props) w
  /\ Forall (fun p => registered p w = false)
            (node_path <$> unit_constructs proc (scope ++ [sanitizeId id]) props).
Proof.
  rewrite ApiStack_eq, unit_paths. cbv zeta. intros H.
  destruct (String.eqb_spec id EmptyString) as [|Hid]; [discriminate H|].
  repeat match type of H with
         | (if ?b then _ else _) = _ =>
             let E := fresh "E" in destruct b eqn:E; [discriminate H|]
         end.
  injection H as <- <-.
  split; [exact Hid|]. split; [reflexivity|]. split; [reflexivity|].
  repeat (apply Forall_cons; split; [assumption|]). apply Forall_nil. trivial.
Qed.

(** The entry points are [new App], for [bin/cdk-demo.ts] the console
    line, and [ApiStack] under the app. *)
Lemma main_env_eq (proc : Process) (w : World) :
  main_env proc w
  = match context proc with
    | None => Throw InvalidContext
    | Some _ =>
        ApiStack proc [] "ApiStack" (Some {| props_env := Some (process_binding proc) |})
          (add_console (diagnostic_line proc) (add_construct app_root w))
    end.
Proof. unfold main_env, new_App. rewrite bind_run, bind_run. cbn [get_world].
  destruct (context proc); reflexivity. Qed.

Lemma main_hardcoded_eq (proc : Process) (w : World) :
  main_hardcoded proc w
  = match context proc with
    | None => Throw InvalidContext
    | Some _ =>
        ApiStack proc [] "ApiStack" (Some {| props_env := Some hardcoded_binding |})
          (add_construct app_root w)
    end.
Proof. unfold main_hardcoded, new_App. rewrite bind_run, bind_run. cbn [get_world].
  destruct (context proc); reflexivity. Qed.

(** ** What a world holds below a scope *)

Lemma fresh_nothing_below (this : Path) (w : World) :
  is_fresh this w = true -> declared_resources this w = [].
Proof.
  unfold is_fresh, declared_resources, below. intros H.
  induction (constructs w) as [|c cs IH]; [reflexivity|].
  simpl in H. apply andb_true_iff in H as [Hc Hcs].
  rewrite filter_cons_False; [exact (IH Hcs)|].
  apply negb_true_iff in Hc. rewrite Hc. simpl. discriminate.
Qed.

Lemma declared_resources_add (this : Path) (cs : list Construct) (w : World) :
  declared_resources this (add_constructs cs w)
  = declared_resources this w ++ filter (fun c => below this c = true) cs.
Proof. unfold declared_resources, add_constructs. simpl. apply filter_app. Qed.

Lemma below_child (this suffix : Path) (r : Resource) :
  suffix <> [] -> below this {| node_path := this ++ suffix; resource := r |} = true.
Proof.
  intros Hne. unfold below. simpl. rewrite is_prefix_app. simpl.
  apply negb_true_iff, bool_decide_eq_false. intros H.
  rewrite <- (app_nil_r this) in H at 2. apply app_inv_head in H. auto.
Qed.

Lemma below_self (this : Path) (r : Resource) :
  below this {| node_path := this; resource := r |} = false.
Proof.
  unfold below. simpl. rewrite is_prefix_refl. simpl.
  apply negb_false_iff, bool_decide_eq_true. reflexivity.
Qed.

Lemma unit_declares (proc : Process) (this : Path) (props : option StackProps) :
  filter (fun c => below this c = true) (unit_constructs proc this props)
  = unit_resources proc this.
Proof.
  unfold unit_constructs, unit_resources, root.
  rewrite filter_cons_False by (rewrite below_self; discriminate).
  rewrite <- !app_assoc. simpl.
  repeat (rewrite filter_cons_True by (apply below_child; discriminate)).
  reflexivity.
Qed.

(** ** Methods on the root resource *)

Lemma methods_on_add (res : Path) (cs : list Construct) (w : World) :
  methods_on (add_constructs cs w) res
  = methods_on w res ++ methods_on {| constructs := cs; console := [] |} res.
Proof. unfold methods_on, add_constructs. simpl. apply omap_app. Qed.

Lemma fresh_no_method (this res : Path) (w : World) :
  is_fresh this w = true -> is_prefix this res = true -> methods_on w res = [].
Proof.
  unfold is_fresh, methods_on. intros Hfresh Hres.
  induction (constructs w) as [|c cs IH]; [reflexivity|].
  simpl in Hfresh. apply andb_true_iff in Hfresh as [Hc Hcs].
  specialize (IH Hcs). cbn [omap list_omap] in *. rewrite IH.
  destruct (resource c); try reflexivity.
  case_bool_decide as Heq; [|reflexivity].
  rewrite Heq, (is_prefix_app_r _ _ _ Hres) in Hc. discriminate.
Qed.

Lemma unit_methods (proc : Process) (this : Path) (props : option StackProps) :
  methods_on {| constructs := unit_constructs proc this props; console := [] |}
             (root (this ++ ["ServiceApi"]))
  = [ ("OPTIONS", MockIntegration {| allowOrigins := Cors.ALL_ORIGINS;
                                     allowMethods := Cors.ALL_METHODS |});
      ("GET", LambdaIntegration (this ++ ["HelloFunction"])) ].
Proof.
  unfold methods_on, unit_constructs, unit_resources. simpl.
  rewrite !bool_decide_eq_true_2 by reflexivity. reflexivity.
Qed.

Lemma ApiStack_methods (proc : Process) (this : Path) (props : option StackProps)
    (w : World) :
  is_fresh this w = true ->
  methods_on (add_constructs (unit_constructs proc this props) w)
             (root (this ++ ["ServiceApi"]))
  = [ ("OPTIONS", MockIntegration {| allowOrigins := Cors.ALL_ORIGINS;
                                     allowMethods := Cors.ALL_METHODS |});
      ("GET", LambdaIntegration (this ++ ["HelloFunction"])) ].
Proof.
  intros Hfresh. rewrite methods_on_add, unit_methods.
  rewrite (fresh_no_method this); [reflexivity | exact Hfresh |].
  unfold root. prefix_of_scope.
Qed.

Lemma find_method_cons (m k : string) (i : Integration)
    (rest : list (string * Integration)) :
  List.find (fun mi => String.eqb (fst mi) m) ((k, i) :: rest)
  = if String.eqb k m then Some (k, i)
    else List.find (fun mi => String.eqb (fst mi) m) rest.
Proof. reflexivity. Qed.

(** ** The resource-definition unit *)

(** C3. Whenever the [ApiStack] constructor succeeds, the constructs it has
    appended to the tree hold, in this order: (a) the compute function,
    with 256 MB of memory and the Node.js 20 managed runtime, and it is the
    only function; (b) the REST API, its CORS preflight accepting all
    origins and all methods, and it is the only REST API; (c) the binding
    of method GET on the API's root resource to that function; (d) an
    output whose value is the API's base URL. *)
Theorem ApiStack_declares_in_order (proc : Process) (scope : Path) (id : string)
    (props : option StackProps) (w w' : World) (this : Path) :
  ApiStack proc scope id props w = Ok (this, w') ->
  exists (added : list Construct) (fprops : NodejsFunctionProps)
         (aprops : RestApiProps) (cors : CorsOptions) (oprops : CfnOutputProps),
    constructs w' = constructs w ++ added
    /\ [ {| node_path := this ++ ["HelloFunction"]; resource := NodejsFunction fprops |};
         {| node_path := this ++ ["ServiceApi"]; resource := RestApi aprops |};
         {| node_path := root (this ++ ["ServiceApi"]) ++ ["GET"];
            resource := Method "GET" (LambdaIntegration (this ++ ["HelloFunction"])) |};
         {| node_path := this ++ ["ApiUrl"]; resource := CfnOutput oprops |} ]
       `sublist_of` added
    /\ memorySize fprops = 256
    /\ runtime fprops = NODEJS_20_X
    /\ defaultCorsPreflightOptions aprops = Some cors
    /\ allowOrigins cors = Cors.ALL_ORIGINS
    /\ allowMethods cors = Cors.ALL_METHODS
    /\ value oprops = url (this ++ ["ServiceApi"])
    /\ count is_function added = 1%nat
    /\ count is_rest_api added = 1%nat.
Proof.
  intros Hrun. apply ApiStack_ok_inv in Hrun as (_ & -> & -> & _).
  eexists (unit_constructs proc (scope ++ [sanitizeId id]) props), _, _, _, _.
  split; [reflexivity|]. split.
  - unfold unit_constructs, unit_resources.
    apply sublist_cons, sublist_skip, sublist_skip, sublist_cons, sublist_cons,
      sublist_skip, sublist_skip, sublist_nil.
  - repeat split; reflexivity.
Qed.

Lemma ApiStack_declares_in_order_witness :
  exists w' : World,
    ApiStack proc_dev [] "ApiStack" None (add_construct app_root empty_world)
    = Ok (["ApiStack"], w')
    /\ exists added : list Construct,
         constructs w' = constructs (add_construct app_root empty_world) ++ added
         /\ count is_function added = 1%nat.
Proof.
  eexists. split; [vm_compute; reflexivity|].
  destruct (ApiStack_declares_in_order proc_dev [] "ApiStack" None
              (add_construct app_root empty_world) _ ["ApiStack"] eq_refl)
    as (added & fprops & aprops & cors & oprops & Hadded & _ & _ & _ & _ & _ & _ & _
        & Hone & _).
  exists added. split; [exact Hadded | exact Hone].
Defined.

(** C4, as stated, fails: the CORS preflight configured on the REST API
    binds OPTIONS on the root resource as well, and the front door answers
    it instead of rejecting it. *)
Lemma root_also_answers_OPTIONS :
  exists w : World,
    exec (main_hardcoded proc_dev) empty_world = Ok w
    /\ (fst <$> methods_on w (root ["ApiStack"; "ServiceApi"])) = ["OPTIONS"; "GET"]
    /\ "OPTIONS" <> "GET"
    /\ front_door w ["ApiStack"; "ServiceApi"] "OPTIONS"
       = Preflight {| allowOrigins := Cors.ALL_ORIGINS;
                      allowMethods := Cors.ALL_METHODS |}
    /\ front_door w ["ApiStack"; "ServiceApi"] "OPTIONS" <> Rejected.
Proof.
  eexists. split; [reflexivity|].
  repeat split; try reflexivity; discriminate.
Qed.

(** C4, amended. Whenever the [ApiStack] constructor succeeds in a scope
    where nothing was registered at or below its path, the root resource of
    the API it has declared has two methods: OPTIONS, the CORS preflight
    answered by the front door itself, and GET, the only method bound to
    the compute function. A request on the root reaches the handler exactly
    when its method is GET; with any method other than GET and OPTIONS it
    is rejected. *)
Theorem only_GET_reaches_the_handler (proc : Process) (scope : Path) (id : string)
    (props : option StackProps) (w w' : World) (this : Path) :
  ApiStack proc scope id props w = Ok (this, w') ->
  is_fresh this w = true ->
  let api := this ++ ["ServiceApi"] in
  let helloFn := this ++ ["HelloFunction"] in
  let cors := {| allowOrigins := Cors.ALL_ORIGINS; allowMethods := Cors.ALL_METHODS |} in
  methods_on w' (root api)
  = [("OPTIONS", MockIntegration cors); ("GET", LambdaIntegration helloFn)]
  /\ front_door w' api "GET" = Invoke helloFn
  /\ front_door w' api "OPTIONS" = Preflight cors
  /\ (forall (m : string) (fn : Path), front_door w' api m = Invoke fn -> m = "GET")
  /\ (forall m : string, m <> "GET" -> m <> "OPTIONS" -> front_door w' api m = Rejected).
Proof.
  intros Hrun Hfresh. cbv zeta.
  apply ApiStack_ok_inv in Hrun as (_ & -> & -> & _).
  assert (Hm := ApiStack_methods proc (scope ++ [sanitizeId id]) props w Hfresh).
  split; [exact Hm|].
  unfold front_door, bound_method. rewrite Hm.
  split; [reflexivity|]. split; [reflexivity|]. split.
  - intros m fn. rewrite !find_method_cons.
    destruct (String.eqb_spec "OPTIONS" m) as [|_]; [discriminate|].
    destruct (String.eqb_spec "GET" m) as [<-|_]; [reflexivity | discriminate].
  - intros m Hget Hopt. rewrite !find_method_cons.
    destruct (String.eqb_spec "OPTIONS" m) as [<-|_]; [contradiction|].
    destruct (String.eqb_spec "GET" m) as [<-|_]; [contradiction|].
    reflexivity.
Qed.

Lemma only_GET_reaches_the_handler_witness :
  exists w' : World,
    ApiStack proc_dev [] "ApiStack" None (add_construct app_root empty_world)
    = Ok (["ApiStack"], w')
    /\ is_fresh ["ApiStack"] (add_construct app_root empty_world) = true
    /\ front_door w' ["ApiStack"; "ServiceApi"] "GET" = Invoke ["ApiStack"; "HelloFunction"]
    /\ front_door w' ["ApiStack"; "ServiceApi"] "POST" = Rejected.
Proof.
  eexists. split; [vm_compute; reflexivity|]. split; [reflexivity|].
  destruct (only_GET_reaches_the_handler proc_dev [] "ApiStack" None
              (add_construct app_root empty_world) _ ["ApiStack"] eq_refl eq_refl)
    as (_ & Hget & _ & _ & Hrej).
  split; [exact Hget|]. apply Hrej; discriminate.
Defined.



(** X4. Once [ApiStack] has succeeded in a scope, any further [ApiStack]
    with the same id in that scope, whatever its props, is refused with a
    collision on that id. *)
Theorem ApiStack_again_collides (proc proc' : Process) (scope : Path) (id : string)
    (props props' : option StackProps) (w w' : World) (this : Path) :
  ApiStack proc scope id props w = Ok (this, w') ->
  ApiStack proc' scope id props' w' = Throw (NameCollision scope id).
Proof.
  intros H. apply ApiStack_ok_inv in H as (Hid & _ & -> & _).
  rewrite ApiStack_eq. cbv zeta.
  destruct (String.eqb_spec id EmptyString) as [|_]; [contradiction|].
  assert (Hreg : registered (scope ++ [sanitizeId id])
                   (add_constructs (unit_constructs proc (scope ++ [sanitizeId id]) props) w)
                 = true).
  { apply registered_elem. cbn [constructs add_constructs].
    rewrite fmap_app, unit_paths. set_solver. }
  rewrite Hreg. reflexivity.
Qed.

Lemma ApiStack_again_collides_witness :
  ApiStack proc_dev [] "ApiStack" None empty_world
  = Ok (["ApiStack"], add_constructs (unit_constructs proc_dev ["ApiStack"] None) empty_world)
  /\ ApiStack proc_pipeline [] "ApiStack" (Some {| props_env := Some hardcoded_binding |})
       (add_constructs (unit_constructs proc_dev ["ApiStack"] None) empty_world)
     = Throw (NameCollision [] "ApiStack").
Proof.
  split; [reflexivity|].
  apply (ApiStack_again_collides proc_dev proc_pipeline [] "ApiStack" None
           (Some {| props_env := Some hardcoded_binding |}) empty_world _ ["ApiStack"]).
  reflexivity.
Defined.

(** A slash in an id is stored as two hyphens, so the ids [a/b] and [a--b]
    name the same construct. *)
Example sanitised_ids_collide :
  (ApiStack proc_dev [] "a/b" None ≫= fun _ => ApiStack proc_dev [] "a--b" None)
    (add_construct app_root empty_world)
  = Throw (NameCollision [] "a--b").
Proof. reflexivity. Qed.

Example invalid_stack_name_refused :
  ApiStack proc_dev [] "Api_Stack" None (add_construct app_root empty_world)
  = Throw (InvalidStackName "Api_Stack").
Proof. reflexivity. Qed.

Example missing_handler_refused :
  ApiStack {| cwd := "/tmp/emptycwd"; env := ∅; context := Some ∅;
              existsSync := checkout "/home/dev/cdk-demo" |}
    [] "ApiStack" None (add_construct app_root empty_world)
  = Throw (EntryNotFound "/tmp/emptycwd/src/handlers/hello-world/index.ts").
Proof. reflexivity. Qed.

(** ** Several stacks in one app *)

Lemma is_prefix_sibling (scope suffix : Path) (id1 id2 : string) :
  id1 <> id2 -> is_prefix (scope ++ [id1]) ((scope ++ [id2]) ++ suffix) = false.
Proof.
  intros Hne. induction scope as [|a scope IH]; simpl.
  - destruct (String.eqb_spec id1 id2); [contradiction | reflexivity].
  - rewrite String.eqb_refl. exact IH.
Qed.

Lemma is_fresh_add (p : Path) (cs : list Construct) (w : World) :
  is_fresh p (add_constructs cs w)
  = is_fresh p w && is_fresh p {| constructs := cs; console := [] |}.
Proof. unfold is_fresh, add_constructs. simpl. apply forallb_app. Qed.

Lemma unit_is_fresh_for_sibling (proc : Process) (scope : Path) (id1 id2 : string)
    (props : option StackProps) :
  id1 <> id2 ->
  is_fresh (scope ++ [id1])
    {| constructs := unit_constructs proc (scope ++ [id2]) props; console := [] |} = true.
Proof.
  intros Hne. unfold is_fresh, unit_constructs, unit_resources, root. simpl.
  rewrite <- (app_nil_r (scope ++ [id2])) at 1.
  rewrite <- !app_assoc.
  rewrite !(app_assoc scope [id2]).
  rewrite !(is_prefix_sibling _ _ _ _ Hne). reflexivity.
Qed.

(** X5. Whenever two [ApiStack]s are built one after the other in the same
    scope and both succeed, in a tree that had nothing at or below their
    paths, they have different paths, the second leaves what the first
    declared untouched, and on each API the front door sends GET on the
    root to the function of that API's own stack. *)
Theorem two_stacks_coexist (proc : Process) (scope : Path) (id1 id2 : string)
    (props1 props2 : option StackProps) (w w1 w2 : World) (this1 this2 : Path) :
  ApiStack proc scope id1 props1 w = Ok (this1, w1) ->
  ApiStack proc scope id2 props2 w1 = Ok (this2, w2) ->
  is_fresh this1 w = true ->
  is_fresh this2 w = true ->
  this1 <> this2
  /\ declared_resources this1 w2 = declared_resources this1 w1
  /\ Forall (fun c => is_prefix this1 (node_path c) = false) (declared_resources this2 w2)
  /\ front_door w2 (this1 ++ ["ServiceApi"]) "GET" = Invoke (this1 ++ ["HelloFunction"])
  /\ front_door w2 (this2 ++ ["ServiceApi"]) "GET" = Invoke (this2 ++ ["HelloFunction"]).
Proof.
  intros Hrun1 Hrun2 Hfresh1 Hfresh2.
  apply ApiStack_ok_inv in Hrun1 as (_ & -> & -> & _).
  apply ApiStack_ok_inv in Hrun2 as (_ & -> & -> & Hfree).
  set (s1 := sanitizeId id1) in *. set (s2 := sanitizeId id2) in *.
  assert (Hne : s1 <> s2).
  { intros Heq. rewrite unit_paths in Hfree. apply Forall_cons in Hfree as [Hfree _].
    assert (Hreg : registered (scope ++ [s2])
                     (add_constructs (unit_constructs proc (scope ++ [s1]) props1) w) = true).
    { apply registered_elem. cbn [constructs add_constructs].
      rewrite fmap_app, unit_paths, Heq. set_solver. }
    rewrite Hreg in Hfree. discriminate. }
  assert (Hne' : s2 <> s1) by congruence.
  set (w1 := add_constructs (unit_constructs proc (scope ++ [s1]) props1) w).
  assert (Hfresh2' : is_fresh (scope ++ [s2]) w1 = true).
  { unfold w1. rewrite is_fresh_add, Hfresh2. apply unit_is_fresh_for_sibling, Hne'. }
  split; [|split; [|split; [|split]]].
  - intros Heq. apply app_inv_head in Heq. congruence.
  - rewrite declared_resources_add.
    rewrite (fresh_nothing_below (scope ++ [s1])
               {| constructs := unit_constructs proc (scope ++ [s2]) props2; console := [] |}
               (unit_is_fresh_for_sibling _ _ _ _ _ Hne)) at 1.
    apply app_nil_r.
  - rewrite declared_resources_add, (fresh_nothing_below _ _ Hfresh2'), unit_declares.
    unfold unit_resources, root. simpl.
    rewrite <- !app_assoc. rewrite !(app_assoc scope [s2]).
    repeat (apply Forall_cons; split; [apply is_prefix_sibling, Hne|]).
    apply Forall_nil. trivial.
  - unfold front_door, bound_method.
    rewrite methods_on_add. unfold w1.
    rewrite (ApiStack_methods proc (scope ++ [s1]) props1 w Hfresh1).
    rewrite (fresh_no_method (scope ++ [s1]) _
               {| constructs := unit_constructs proc (scope ++ [s2]) props2; console := [] |});
      [reflexivity | apply unit_is_fresh_for_sibling, Hne |].
    unfold root. prefix_of_scope.
  - unfold front_door, bound_method.
    rewrite (ApiStack_methods proc (scope ++ [s2]) props2 w1 Hfresh2'). reflexivity.
Qed.

Lemma two_stacks_coexist_witness :
  exists w1 w2 : World,
    ApiStack proc_dev [] "ApiStack-dev" None (add_construct app_root empty_world)
    = Ok (["ApiStack-dev"], w1)
    /\ ApiStack proc_dev [] "ApiStack-prod" None w1 = Ok (["ApiStack-prod"], w2)
    /\ is_fresh ["ApiStack-dev"] (add_construct app_root empty_world) = true
    /\ is_fresh ["ApiStack-prod"] (add_construct app_root empty_world) = true
    /\ front_door w2 ["ApiStack-dev"; "ServiceApi"] "GET"
       = Invoke ["ApiStack-dev"; "HelloFunction"].
Proof.
  eexists _, _. split; [vm_compute; reflexivity|]. split; [vm_compute; reflexivity|].
  split; [reflexivity|]. split; [reflexivity|].
  destruct (two_stacks_coexist proc_dev [] "ApiStack-dev" "ApiStack-prod" None None
              (add_construct app_root empty_world) _ _ ["ApiStack-dev"] ["ApiStack-prod"]
              eq_refl eq_refl eq_refl eq_refl) as (_ & _ & _ & Hget & _).
  exact Hget.
Defined.

(** ** Invariants of the tree *)

Lemma declared_in_order_app (earlier cs1 cs2 : list Construct) :
  declared_in_order earlier (cs1 ++ cs2)
  = declared_in_order earlier cs1 && declared_in_order (earlier ++ cs1) cs2.
Proof.
  revert earlier. induction cs1 as [|c cs1 IH]; intros earlier; simpl.
  - rewrite app_nil_r. reflexivity.
  - rewrite IH, <- app_assoc, andb_assoc. reflexivity.
Qed.

Lemma unit_declared_in_order (proc : Process) (this : Path) (props : option StackProps)
    (earlier : list Construct) :
  declared_in_order earlier (unit_constructs proc this props) = true.
Proof.
  unfold unit_constructs, unit_resources. simpl. unfold resolves. simpl.
  rewrite !existsb_app. simpl. unfold is_function, is_rest_api. simpl.
  rewrite ?andb_false_r. simpl.
  rewrite !bool_decide_eq_true_2 by reflexivity. simpl.
  rewrite ?orb_true_r. reflexivity.
Qed.

(** X6. [ApiStack] keeps the tree in declaration order: if every construct
    of the tree only refers to constructs created before it, the same holds
    after a successful [ApiStack]; in particular the GET method refers to a
    function, and the output to a REST API, that were created before
    them. *)
Theorem ApiStack_keeps_declaration_order (proc : Process) (scope : Path) (id : string)
    (props : option StackProps) (w w' : World) (this : Path) :
  ApiStack proc scope id props w = Ok (this, w') ->
  declared_in_order [] (constructs w) = true ->
  declared_in_order [] (constructs w') = true.
Proof.
  intros Hrun Hw. apply ApiStack_ok_inv in Hrun as (_ & _ & -> & _).
  cbn [constructs add_constructs].
  rewrite declared_in_order_app, Hw. apply unit_declared_in_order.
Qed.

Lemma ApiStack_keeps_declaration_order_witness :
  ApiStack proc_dev [] "ApiStack" None (add_construct app_root empty_world)
  = Ok (["ApiStack"],
        add_constructs (unit_constructs proc_dev ["ApiStack"] None)
          (add_construct app_root empty_world))
  /\ declared_in_order [] (constructs (add_construct app_root empty_world)) = true
  /\ declared_in_order []
       (constructs (add_constructs (unit_constructs proc_dev ["ApiStack"] None)
                      (add_construct app_root empty_world))) = true.
Proof.
  split; [reflexivity|]. split; [reflexivity|].
  apply (ApiStack_keeps_declaration_order proc_dev [] "ApiStack" None
           (add_construct app_root empty_world) _ ["ApiStack"]); reflexivity.
Defined.

(** [declared_in_order] does tell trees apart: a GET method created before
    the function it invokes is out of order. *)
Example method_before_function_out_of_order :
  declared_in_order []
    [ {| node_path := ["S"; "Api"; "Default"; "GET"];
         resource := Method "GET" (LambdaIntegration ["S"; "Fn"]) |};
      {| node_path := ["S"; "Fn"];
         resource := NodejsFunction {| entry := "/index.ts"; runtime := NODEJS_20_X;
                                       memorySize := 256 |} |} ] = false.
Proof. reflexivity. Qed.

Lemma unit_paths_NoDup (proc : Process) (this : Path) (props : option StackProps) :
  NoDup (node_path <$> unit_constructs proc this props).
Proof.
  rewrite unit_paths.
  repeat (apply NoDup_cons; split;
          [rewrite ?not_elem_of_cons; repeat split;
           first [apply not_elem_of_nil | path_neq]|]).
  apply NoDup_nil. trivial.
Qed.

(** X7. [ApiStack] keeps paths unique: run in a tree where no two
    constructs share a path, it either fails or leaves a tree where no two
    constructs share a path. *)
Theorem ApiStack_keeps_paths_unique (proc : Process) (scope : Path) (id : string)
    (props : option StackProps) (w w' : World) (this : Path) :
  ApiStack proc scope id props w = Ok (this, w') ->
  NoDup (node_path <$> constructs w) ->
  NoDup (node_path <$> constructs w').
Proof.
  intros Hrun Hw. apply ApiStack_ok_inv in Hrun as (_ & _ & -> & Hfree).
  cbn [constructs add_constructs].
  rewrite fmap_app. apply NoDup_app. split; [exact Hw|]. split.
  - intros p Hin Hunit. rewrite Forall_forall in Hfree.
    apply registered_elem in Hin. rewrite (Hfree p Hunit) in Hin. discriminate.
  - apply unit_paths_NoDup.
Qed.

Lemma ApiStack_keeps_paths_unique_witness :
  ApiStack proc_dev [] "ApiStack" None (add_construct app_root empty_world)
  = Ok (["ApiStack"],
        add_constructs (unit_constructs proc_dev ["ApiStack"] None)
          (add_construct app_root empty_world))
  /\ NoDup (node_path <$> constructs (add_construct app_root empty_world))
  /\ NoDup (node_path <$>
              constructs (add_constructs (unit_constructs proc_dev ["ApiStack"] None)
                            (add_construct app_root empty_world))).
Proof.
  assert (Hbase : NoDup (node_path <$> constructs (add_construct app_root empty_world))).
  { simpl. apply NoDup_singleton. }
  split; [reflexivity|]. split; [exact Hbase|].
  apply (ApiStack_keeps_paths_unique proc_dev [] "ApiStack" None
           (add_construct app_root empty_world) _ ["ApiStack"]);
    [reflexivity | exact Hbase].
Defined.

(** ** Cross-origin calls *)

(** X10. Whenever the [ApiStack] constructor succeeds in a scope where
    nothing was registered at or below its path, the preflight answer of
    the API it has declared covers the API's own methods: it allows every
    origin, and every method bound on the root resource is among the
    methods it allows, so a browser's cross-origin GET passes the
    preflight. *)
Theorem preflight_allows_bound_methods (proc : Process) (scope : Path) (id : string)
    (props : option StackProps) (w w' : World) (this : Path) :
  ApiStack proc scope id props w = Ok (this, w') ->
  is_fresh this w = true ->
  exists cors : CorsOptions,
    front_door w' (this ++ ["ServiceApi"]) "OPTIONS" = Preflight cors
    /\ "*" ∈ allowOrigins cors
    /\ (forall (m : string) (i : Integration),
          (m, i) ∈ methods_on w' (root (this ++ ["ServiceApi"])) ->
          m ∈ allowMethods cors).
Proof.
  intros Hrun Hfresh. apply ApiStack_ok_inv in Hrun as (_ & -> & -> & _).
  assert (Hm := ApiStack_methods proc (scope ++ [sanitizeId id]) props w Hfresh).
  eexists. unfold front_door, bound_method. rewrite Hm.
  split; [reflexivity|]. split; [unfold Cors.ALL_ORIGINS; set_solver|].
  intros m i Hin. unfold Cors.ALL_METHODS. simpl.
  apply elem_of_cons in Hin as [Hin | Hin]; [injection Hin as -> _; set_solver|].
  apply elem_of_cons in Hin as [Hin | Hin]; [injection Hin as -> _; set_solver|].
  apply elem_of_nil in Hin. contradiction.
Qed.

Lemma preflight_allows_bound_methods_witness :
  exists (w' : World) (cors : CorsOptions),
    ApiStack proc_dev [] "ApiStack" None (add_construct app_root empty_world)
    = Ok (["ApiStack"], w')
    /\ is_fresh ["ApiStack"] (add_construct app_root empty_world) = true
    /\ front_door w' ["ApiStack"; "ServiceApi"] "OPTIONS" = Preflight cors
    /\ "*" ∈ allowOrigins cors.
Proof.
  eexists.
  assert (Hrun : ApiStack proc_dev [] "ApiStack" None (add_construct app_root empty_world)
                 = Ok (["ApiStack"],
                       add_constructs (unit_constructs proc_dev ["ApiStack"] None)
                         (add_construct app_root empty_world))) by reflexivity.
  destruct (preflight_allows_bound_methods proc_dev [] "ApiStack" None
              (add_construct app_root empty_world) _ ["ApiStack"] Hrun eq_refl)
    as (cors & Hopt & Horigin & _).
  exists cors. split; [exact Hrun|]. split; [reflexivity|].
  split; [exact Hopt | exact Horigin].
Defined.

(** The stack ends up with two outputs that carry the API's URL: the
    [Endpoint] output that comes with the REST API and the [ApiUrl] output
    the stack's own code declares; and with two methods on the root. *)
Example sample_run_outputs_and_methods :
  exists w : World,
    exec (main_hardcoded proc_dev) empty_world = Ok w
    /\ count is_output (declared_resources ["ApiStack"] w) = 2%nat
    /\ count is_method (declared_resources ["ApiStack"] w) = 2%nat.
Proof. eexists. split; [reflexivity|]. split; reflexivity. Qed.

(** ** The entry points *)

Lemma entry_point_selection (e : EntryPoint) (sel : string) (proc : Process) (w : World) :
  entry_point e (with_selection sel proc) w = entry_point e proc w.
Proof.
  destruct e; cbn [entry_point]; rewrite ?main_env_eq, ?main_hardcoded_eq;
    cbn [with_selection context]; destruct (context proc); reflexivity.
Qed.

(** What a successful entry point leaves: the app, the stack [ApiStack]
    with the entry point's binding, and the stack's resources. *)
Lemma entry_point_ok_inv (e : EntryPoint) (proc : Process) (w : World) :
  exec (entry_point e proc) empty_world = Ok w ->
  constructs w
  = app_root :: unit_constructs proc ["ApiStack"]
                  (Some {| props_env := Some (binding e proc) |})
  /\ console w = match e with CdkDemo => [diagnostic_line proc] | Hardcoded => [] end.
Proof.
  unfold exec. destruct e; cbn [entry_point binding];
    rewrite ?main_env_eq, ?main_hardcoded_eq;
    (destruct (context proc); [|discriminate]);
    destruct (ApiStack _ _ _ _ _) as [[this w']|] eqn:Hrun; try discriminate;
    intros H; injection H as <-;
    apply ApiStack_ok_inv in Hrun as (_ & _ & -> & _); split; reflexivity.
Qed.

(** C1, as stated, fails: with a selection the table does not have, the
    entry point raises nothing and builds the stack, its function and its
    REST API all the same. *)
Lemma unknown_environment_still_builds :
  selection proc_qa = Some "qa"
  /\ configs !! "qa" = None
  /\ exists w : World,
       exec (main_env proc_qa) empty_world = Ok w
       /\ (node_path <$> stacks w) = [["ApiStack"]]
       /\ count is_function (declared_resources ["ApiStack"] w) = 1%nat
       /\ count is_rest_api (declared_resources ["ApiStack"] w) = 1%nat.
Proof.
  split; [reflexivity|]. split; [reflexivity|].
  eexists. split; [reflexivity|]. repeat split; reflexivity.
Qed.

(** C1, amended. An environment selection that names no entry of the table
    does not make the entry point fail: the selection is not read. Whatever
    the selection string, in the table or not, a run that succeeds without
    it succeeds with it and builds the very same tree, with the one stack
    [ApiStack]. *)
Theorem entry_point_ignores_selection (e : EntryPoint) (proc : Process) (sel : string)
    (w : World) :
  exec (entry_point e proc) empty_world = Ok w ->
  exec (entry_point e (with_selection sel proc)) empty_world = Ok w
  /\ (node_path <$> stacks w) = [["ApiStack"]].
Proof.
  intros Hrun. split.
  - unfold exec. rewrite entry_point_selection. exact Hrun.
  - apply entry_point_ok_inv in Hrun as [Hcs _].
    unfold stacks. rewrite Hcs. reflexivity.
Qed.

Lemma entry_point_ignores_selection_witness :
  exists w : World,
    exec (entry_point CdkDemo proc_dev) empty_world = Ok w
    /\ configs !! "qa" = None
    /\ exec (entry_point CdkDemo (with_selection "qa" proc_dev)) empty_world = Ok w.
Proof.
  eexists. split; [vm_compute; reflexivity|]. split; [reflexivity|].
  apply (entry_point_ignores_selection CdkDemo proc_dev "qa"). reflexivity.
Defined.

(** C2, as stated, fails: selecting [dev] does not load the [dev] record.
    The stack is bound to whatever the two environment variables hold (here
    nothing), or to the account and region written in the file, and it is
    called [ApiStack] whatever the environment. *)
Lemma dev_selection_not_loaded :
  selection proc_dev = Some "dev"
  /\ configs !! "dev"
     = Some {| cfg_account := "111111111111"; cfg_region := "us-east-1"; dbName := "devdb" |}
  /\ exists w_env w_hard : World,
       exec (main_env proc_dev) empty_world = Ok w_env
       /\ exec (main_hardcoded proc_dev) empty_world = Ok w_hard
       /\ (stack_env <$> stacks w_env) = [Some {| account := None; region := None |}]
       /\ (stack_env <$> stacks w_hard)
          = [Some {| account := Some "339713054130"; region := Some "ap-south-1" |}]
       /\ (node_path <$> stacks w_env) = [["ApiStack"]]
       /\ (node_path <$> stacks w_hard) = [["ApiStack"]].
Proof.
  split; [reflexivity|]. split; [reflexivity|].
  eexists _, _. split; [reflexivity|]. split; [reflexivity|].
  repeat split; reflexivity.
Qed.

(** C2, amended. Whenever an entry point succeeds, whatever environment is
    selected, it has built exactly one stack, with the fixed id [ApiStack];
    the stack's declared account and region are the values of
    CDK_DEFAULT_ACCOUNT and AWS_REGION in the process environment
    (undefined when unset) for [bin/cdk-demo.ts], and 339713054130 /
    ap-south-1 for the hard-coded variant. Selecting [dev] thus binds the
    stack to the [dev] account and region exactly when the entry point's
    binding is that pair. *)
Theorem stack_bound_to_process_environment (e : EntryPoint) (proc : Process)
    (sel : string) (w : World) :
  exec (entry_point e (with_selection sel proc)) empty_world = Ok w ->
  (node_path <$> stacks w) = [["ApiStack"]]
  /\ (stack_env <$> stacks w) = [Some (binding e proc)]
  /\ binding CdkDemo proc
     = {| account := env proc !! "CDK_DEFAULT_ACCOUNT"; region := env proc !! "AWS_REGION" |}
  /\ binding Hardcoded proc
     = {| account := Some "339713054130"; region := Some "ap-south-1" |}
  /\ ((stack_env <$> stacks w)
        = [Some {| account := Some "111111111111"; region := Some "us-east-1" |}]
      <-> binding e proc
          = {| account := Some "111111111111"; region := Some "us-east-1" |}).
Proof.
  intros Hrun. unfold exec in Hrun. rewrite entry_point_selection in Hrun.
  apply entry_point_ok_inv in Hrun as [Hcs _].
  assert (Henv : (stack_env <$> stacks w) = [Some (binding e proc)])
    by (unfold stacks; rewrite Hcs; reflexivity).
  split; [unfold stacks; rewrite Hcs; reflexivity|].
  split; [exact Henv|]. split; [reflexivity|]. split; [reflexivity|].
  rewrite Henv. split.
  - intros H. injection H as H. exact H.
  - intros ->. reflexivity.
Qed.

Lemma stack_bound_to_process_environment_witness :
  exists w : World,
    exec (entry_point CdkDemo (with_selection "dev" proc_pipeline)) empty_world = Ok w
    /\ (stack_env <$> stacks w)
       = [Some {| account := Some "111111111111"; region := Some "us-east-1" |}].
Proof.
  eexists. split; [vm_compute; reflexivity|].
  destruct (stack_bound_to_process_environment CdkDemo proc_pipeline "dev" _ eq_refl)
    as (_ & Henv & _).
  exact Henv.
Defined.






(** X11. Whenever both entry points succeed from the same process, they
    have built the very same construct tree exactly when
    CDK_DEFAULT_ACCOUNT and AWS_REGION hold the account and region written
    in the hard-coded variant; with any other values, or with one of them
    unset, the trees differ. *)
Theorem entry_points_same_tree_iff (proc : Process) (w_env w_hard : World) :
  exec (main_env proc) empty_world = Ok w_env ->
  exec (main_hardcoded proc) empty_world = Ok w_hard ->
  constructs w_env = constructs w_hard
  <-> env proc !! "CDK_DEFAULT_ACCOUNT" = Some "339713054130"
      /\ env proc !! "AWS_REGION" = Some "ap-south-1".
Proof.
  intros Henv Hhard.
  apply (entry_point_ok_inv CdkDemo) in Henv as [-> _].
  apply (entry_point_ok_inv Hardcoded) in Hhard as [-> _].
  cbn [binding]. unfold unit_constructs, process_binding, hardcoded_binding. split.
  - intros H. injection H as Hacc Hreg. split; assumption.
  - intros [Hacc Hreg]. rewrite Hacc, Hreg. reflexivity.
Qed.

Lemma entry_points_same_tree_iff_witness :
  exists w_env w_hard : World,
    exec (main_env proc_dev) empty_world = Ok w_env
    /\ exec (main_hardcoded proc_dev) empty_world = Ok w_hard
    /\ constructs w_env <> constructs w_hard.
Proof.
  eexists _, _. split; [vm_compute; reflexivity|]. split; [vm_compute; reflexivity|].
  intros Heq.
  apply (entry_points_same_tree_iff proc_dev _ _ eq_refl eq_refl) in Heq as [Hacc _].
  discriminate Hacc.
Defined.

(** ** Strings *)

Lemma append_assoc (a b c : string) : (a +:+ b) +:+ c = a +:+ (b +:+ c).
Proof.
  induction a as [|x a IH]; [reflexivity|].
  change (String x ((a +:+ b) +:+ c) = String x (a +:+ b +:+ c)). rewrite IH. reflexivity.
Qed.

(** ** The handler's entry *)

Module PosixPathFacts.
Import PosixPath.

Lemma split_nonempty (s : string) : split s <> [].
Proof.
  destruct s as [|c s]; simpl; [discriminate|].
  destruct (Ascii.eqb c slash); [discriminate|].
  destruct (split s); discriminate.
Qed.

Lemma split_cons (c : ascii) (s : string) :
  split (String c s)
  = if Ascii.eqb c slash then EmptyString :: split s
    else match split s with
         | seg :: segs => String c seg :: segs
         | [] => [String c EmptyString]
         end.
Proof. reflexivity. Qed.

(** [(a + "/" + b).split("/")] is [a.split("/")] followed by
    [b.split("/")]. *)
Lemma split_join (a b : string) : split (a +:+ "/" +:+ b) = split a ++ split b.
Proof.
  induction a as [|c a IH].
  - reflexivity.
  - change (String c a +:+ "/" +:+ b) with (String c (a +:+ "/" +:+ b)).
    rewrite !split_cons, IH.
    destruct (Ascii.eqb c slash); [reflexivity|].
    pose proof (split_nonempty a) as Hne.
    destruct (split a) as [|seg segs]; [contradiction | reflexivity].
Qed.

Lemma split_plain (seg : string) : has_slash seg = false -> split seg = [seg].
Proof.
  induction seg as [|c seg IH]; [reflexivity|].
  simpl. intros H. apply orb_false_elim in H as [Hc Hrest].
  rewrite Hc, (IH Hrest). reflexivity.
Qed.

Lemma plain_no_slash (seg : string) : plain_segment seg = true -> has_slash seg = false.
Proof.
  unfold plain_segment. intros H. apply andb_prop in H as [_ H].
  apply negb_true_iff, H.
Qed.

Lemma split_unsplit (seg : string) (segs : list string) :
  Forall (fun s => plain_segment s = true) (seg :: segs) ->
  split (unsplit (seg :: segs)) = seg :: segs.
Proof.
  revert seg. induction segs as [|seg' segs IH]; intros seg H.
  - apply Forall_cons in H as [H _]. apply split_plain, plain_no_slash, H.
  - apply Forall_cons in H as [Hseg H].
    change (unsplit (seg :: seg' :: segs)) with (seg +:+ "/" +:+ unsplit (seg' :: segs)).
    rewrite split_join, (IH _ H), (split_plain _ (plain_no_slash _ Hseg)). reflexivity.
Qed.

Lemma push_plain (allowAboveRoot : bool) (acc : list string) (seg : string) :
  plain_segment seg = true -> push_segment allowAboveRoot acc seg = seg :: acc.
Proof.
  unfold plain_segment, push_segment. intros H.
  apply andb_prop in H as [H _]. apply andb_prop in H as [H H3].
  apply andb_prop in H as [H1 H2].
  apply negb_true_iff in H1, H2, H3. rewrite H1, H2, H3. reflexivity.
Qed.

Lemma fold_push_plain (allowAboveRoot : bool) (segs acc : list string) :
  Forall (fun s => plain_segment s = true) segs ->
  fold_left (push_segment allowAboveRoot) segs acc = rev segs ++ acc.
Proof.
  revert acc. induction segs as [|seg segs IH]; intros acc H; [reflexivity|].
  apply Forall_cons in H as [Hseg H].
  simpl. rewrite (push_plain _ _ _ Hseg), (IH _ H), <- app_assoc. reflexivity.
Qed.

Lemma unsplit_app (segs : list string) (seg : string) (rest : list string) :
  unsplit (segs ++ seg :: rest) = dir_prefix segs +:+ unsplit (seg :: rest).
Proof.
  induction segs as [|s segs IH]; [reflexivity|].
  change ((s :: segs) ++ seg :: rest) with (s :: (segs ++ seg :: rest)).
  destruct segs as [|s' segs].
  - cbn [dir_prefix]. rewrite append_assoc. reflexivity.
  - change (unsplit (s :: (s' :: segs) ++ seg :: rest))
      with (s +:+ "/" +:+ unsplit ((s' :: segs) ++ seg :: rest)).
    rewrite IH. cbn [dir_prefix]. rewrite !append_assoc. reflexivity.
Qed.

Lemma ends_with_slash_app (a : string) (c : ascii) (b : string) :
  ends_with_slash (a +:+ String c b) = ends_with_slash (String c b).
Proof.
  induction a as [|x a IH]; [reflexivity|].
  change (String x a +:+ String c b) with (String x (a +:+ String c b)).
  cbn [ends_with_slash]. rewrite IH.
  destruct (a +:+ String c b) eqn:E; [|reflexivity].
  destruct a; discriminate E.
Qed.

Lemma dir_prefix_ends_with_slash (segs : list string) :
  segs <> [] -> ends_with_slash (dir_prefix segs) = true.
Proof.
  induction segs as [|s segs IH]; [contradiction|]. intros _.
  cbn [dir_prefix]. destruct segs as [|s' segs].
  - apply (ends_with_slash_app s "/" EmptyString).
  - specialize (IH ltac:(discriminate)).
    cbn [dir_prefix] in *. rewrite <- append_assoc.
    destruct (s' +:+ "/" +:+ dir_prefix segs) as [|c rest] eqn:E.
    + destruct s'; discriminate E.
    + rewrite ends_with_slash_app. exact IH.
Qed.

Lemma append_nonempty (a : string) (c : ascii) (b : string) :
  String.eqb (a +:+ String c b) EmptyString = false.
Proof. destruct a; reflexivity. Qed.

Lemma dir_prefix_unsplit (seg : string) (segs : list string) :
  dir_prefix (seg :: segs) = unsplit (seg :: segs) +:+ "/".
Proof.
  revert seg. induction segs as [|seg' segs IH]; intros seg.
  - reflexivity.
  - change (dir_prefix (seg :: seg' :: segs)) with (seg +:+ "/" +:+ dir_prefix (seg' :: segs)).
    change (unsplit (seg :: seg' :: segs)) with (seg +:+ "/" +:+ unsplit (seg' :: segs)).
    rewrite IH, !append_assoc. reflexivity.
Qed.

Lemma split_no_slash (s : string) : Forall (fun seg => has_slash seg = false) (split s).
Proof.
  induction s as [|c s IH]; [repeat constructor|].
  rewrite split_cons. destruct (Ascii.eqb c slash) eqn:Hc.
  - apply Forall_cons. split; [reflexivity | exact IH].
  - destruct (split s) as [|seg segs]; [repeat constructor; simpl; rewrite Hc; reflexivity|].
    apply Forall_cons in IH as [Hseg Hsegs].
    apply Forall_cons. split; [simpl; rewrite Hc; exact Hseg | exact Hsegs].
Qed.

Lemma push_kept (allowAboveRoot : bool) (acc : list string) (seg : string) :
  has_slash seg = false -> Forall kept acc ->
  Forall kept (push_segment allowAboveRoot acc seg).
Proof.
  intros Hseg Hacc. unfold push_segment.
  destruct (String.eqb_spec seg EmptyString) as [|Hne]; [exact Hacc|].
  destruct (String.eqb seg "."); [exact Hacc|]. cbn [orb].
  assert (Hkept : kept seg) by (split; assumption).
  destruct (String.eqb seg "..").
  - destruct acc as [|top below].
    + destruct allowAboveRoot; repeat constructor; [exact (proj1 Hkept) | exact Hseg].
    + destruct (String.eqb top "..").
      * apply Forall_cons. split; assumption.
      * apply Forall_cons in Hacc as [_ Hbelow]. exact Hbelow.
  - apply Forall_cons. split; assumption.
Qed.

Lemma fold_push_kept (allowAboveRoot : bool) (segs acc : list string) :
  Forall (fun seg => has_slash seg = false) segs -> Forall kept acc ->
  Forall kept (fold_left (push_segment allowAboveRoot) segs acc).
Proof.
  revert acc. induction segs as [|seg segs IH]; intros acc Hsegs Hacc; [exact Hacc|].
  apply Forall_cons in Hsegs as [Hseg Hsegs].
  simpl. apply IH; [exact Hsegs | apply push_kept; assumption].
Qed.

Lemma starts_with_slash_kept (seg rest : string) :
  kept seg -> starts_with_slash (seg +:+ rest) = false.
Proof.
  intros [Hne Hslash]. destruct seg as [|c seg]; [contradiction|].
  simpl in Hslash. apply orb_false_elim in Hslash as [Hc _]. exact Hc.
Qed.

End PosixPathFacts.

Lemma handler_segments_plain :
  Forall (fun s => plain_segment s = true) ["src"; "handlers"; "hello-world"; "index.ts"].
Proof. repeat constructor. Qed.

(** What [normalize] makes of [cwd + "/" + "src/handlers/hello-world/index.ts"]
    for a non-empty [cwd]. *)
Lemma join_handler_entry (c : ascii) (dir : string) :
  PosixPath.join (String c dir) "src/handlers/hello-world/index.ts"
  = (if Ascii.eqb c PosixPath.slash then "/" else EmptyString)
    +:+ dir_prefix (rev (fold_left (PosixPath.push_segment
                                      (negb (Ascii.eqb c PosixPath.slash)))
                                   (PosixPath.split (String c dir)) []))
    +:+ "src/handlers/hello-world/index.ts".
Proof.
  unfold PosixPath.join.
  change (String.eqb (String c dir) EmptyString) with false.
  change (String.eqb "src/handlers/hello-world/index.ts" EmptyString) with false.
  cbv iota.
  set (joined := String c dir +:+ "/" +:+ "src/handlers/hello-world/index.ts").
  assert (Hne : String.eqb joined EmptyString = false) by reflexivity.
  rewrite Hne. unfold PosixPath.normalize. rewrite Hne.
  assert (Habs : PosixPath.starts_with_slash joined = Ascii.eqb c PosixPath.slash)
    by reflexivity.
  assert (Htrail : PosixPath.ends_with_slash joined = false)
    by exact (PosixPathFacts.ends_with_slash_app (String c dir) "/"
                "src/handlers/hello-world/index.ts").
  cbv zeta. rewrite Habs, Htrail.
  assert (Hbody : PosixPath.normalizeString joined (negb (Ascii.eqb c PosixPath.slash))
                  = dir_prefix (rev (fold_left (PosixPath.push_segment
                                                  (negb (Ascii.eqb c PosixPath.slash)))
                                               (PosixPath.split (String c dir)) []))
                    +:+ "src/handlers/hello-world/index.ts").
  { unfold PosixPath.normalizeString, joined.
    rewrite PosixPathFacts.split_join, fold_left_app.
    change (PosixPath.split "src/handlers/hello-world/index.ts")
      with ["src"; "handlers"; "hello-world"; "index.ts"].
    rewrite (PosixPathFacts.fold_push_plain _ _ _ handler_segments_plain).
    rewrite rev_app_distr, rev_involutive.
    apply (PosixPathFacts.unsplit_app _ "src" ["handlers"; "hello-world"; "index.ts"]). }
  rewrite Hbody.
  set (d := dir_prefix _).
  assert (Hnonempty : String.eqb (d +:+ "src/handlers/hello-world/index.ts") EmptyString
                      = false) by apply PosixPathFacts.append_nonempty.
  rewrite Hnonempty.
  destruct (Ascii.eqb c PosixPath.slash); reflexivity.
Qed.

(** X8. Whatever the working directory, the entry the stack gives its
    function is the handler's relative path [src/handlers/hello-world/index.ts]
    behind a directory prefix that is empty or ends with a slash: dot
    segments, doubled or trailing slashes in the working directory never
    eat into the handler's path. The entry is absolute exactly when the
    working directory is. *)
Theorem entry_keeps_handler_path (cwd : string) :
  exists dir : string,
    PosixPath.join cwd "src/handlers/hello-world/index.ts"
    = dir +:+ "src/handlers/hello-world/index.ts"
    /\ (dir = EmptyString \/ PosixPath.ends_with_slash dir = true)
    /\ PosixPath.starts_with_slash
         (PosixPath.join cwd "src/handlers/hello-world/index.ts")
       = PosixPath.starts_with_slash cwd.
Proof.
  destruct cwd as [|c rest].
  - exists EmptyString. repeat split. left. reflexivity.
  - rewrite join_handler_entry.
    set (acc := fold_left _ _ _).
    assert (Hkept : Forall kept (rev acc)).
    { apply Forall_rev, PosixPathFacts.fold_push_kept;
        [apply PosixPathFacts.split_no_slash | constructor]. }
    exists ((if Ascii.eqb c PosixPath.slash then "/" else EmptyString)
              +:+ dir_prefix (rev acc)).
    split; [|split].
    + destruct (Ascii.eqb c PosixPath.slash); reflexivity.
    + destruct (rev acc) as [|seg segs] eqn:E.
      * destruct (Ascii.eqb c PosixPath.slash); [right | left]; reflexivity.
      * right.
        assert (Hend : PosixPath.ends_with_slash (dir_prefix (seg :: segs)) = true)
          by (apply PosixPathFacts.dir_prefix_ends_with_slash; discriminate).
        destruct (Ascii.eqb c PosixPath.slash); [|exact Hend].
        destruct (dir_prefix (seg :: segs)) as [|x d] eqn:Ed; [discriminate Hend|].
        rewrite PosixPathFacts.ends_with_slash_app. exact Hend.
    + cbn [PosixPath.starts_with_slash].
      destruct (Ascii.eqb c PosixPath.slash); [reflexivity|].
      change (EmptyString +:+ ?x) with x.
      destruct (rev acc) as [|seg segs]; [reflexivity|].
      apply Forall_cons in Hkept as [Hseg _].
      cbn [dir_prefix]. rewrite !append_assoc.
      apply PosixPathFacts.starts_with_slash_kept, Hseg.
Qed.

(** X9. From a working directory that is a clean absolute path, a slash
    followed by plain names separated by single slashes, the entry is that
    directory, a slash, and the handler's relative path. *)
Theorem entry_in_clean_directory (seg : string) (segs : list string) :
  Forall (fun s => plain_segment s = true) (seg :: segs) ->
  PosixPath.join ("/" +:+ PosixPath.unsplit (seg :: segs))
                 "src/handlers/hello-world/index.ts"
  = ("/" +:+ PosixPath.unsplit (seg :: segs)) +:+ "/"
      +:+ "src/handlers/hello-world/index.ts".
Proof.
  intros Hplain.
  change ("/" +:+ PosixPath.unsplit (seg :: segs))
    with (String "/" (PosixPath.unsplit (seg :: segs))).
  rewrite join_handler_entry. cbn [Ascii.eqb Bool.eqb PosixPath.slash negb].
  rewrite PosixPathFacts.split_cons. cbn [Ascii.eqb Bool.eqb PosixPath.slash].
  rewrite (PosixPathFacts.split_unsplit _ _ Hplain).
  change (fold_left (PosixPath.push_segment false) (EmptyString :: seg :: segs) [])
    with (fold_left (PosixPath.push_segment false) (seg :: segs) []).
  rewrite (PosixPathFacts.fold_push_plain _ _ _ Hplain), app_nil_r, rev_involutive.
  rewrite PosixPathFacts.dir_prefix_unsplit, !append_assoc. reflexivity.
Qed.

Lemma entry_in_clean_directory_witness :
  Forall (fun s => plain_segment s = true) ["home"; "dev"; "cdk-demo"]
  /\ PosixPath.join "/home/dev/cdk-demo" "src/handlers/hello-world/index.ts"
     = "/home/dev/cdk-demo/src/handlers/hello-world/index.ts".
Proof.
  assert (Hplain : Forall (fun s => plain_segment s = true) ["home"; "dev"; "cdk-demo"])
    by (repeat constructor).
  split; [exact Hplain|].
  exact (entry_in_clean_directory "home" ["dev"; "cdk-demo"] Hplain).
Defined.

(** ** Time stamps *)

Module DateTimeFacts.
Import DateTime.

Lemma civil_from_days_bounds (z : Z) :
  -100000000 <= z <= 100000000 ->
  1 <= (civil_from_days z).1.2 <= 12
  /\ -272000 <= (civil_from_days z).1.1 <= 276000.
Proof.
  intros Hz. unfold civil_from_days. cbv zeta.
  set (era := (z + 719468) / 146097).
  set (doe := z + 719468 - era * 146097).
  assert (Hdoe : 0 <= doe <= 146096) by (subst doe era; Z.div_mod_to_equations; lia).
  assert (Hera : -680 <= era <= 689) by (subst era; Z.div_mod_to_equations; lia).
  set (yoe := (doe - doe / 1460 + doe / 36524 - doe / 146096) / 365).
  set (doy := doe - (365 * yoe + yoe / 4 - yoe / 100)).
  assert (Hy : 0 <= yoe <= 399 /\ 0 <= doy <= 365)
    by (subst doy yoe; Z.div_mod_to_equations; lia).
  set (mp := (5 * doy + 2) / 153).
  assert (Hmp : 0 <= mp <= 11) by (subst mp; Z.div_mod_to_equations; lia).
  simpl.
  destruct (Z.ltb_spec mp 10); (split; [lia|]);
    match goal with |- context [?a <=? 2] => destruct (Z.leb_spec a 2) end; lia.
Qed.

(** The day [civil_from_days] gives is a day of its month, leap years
    included. *)
Lemma civil_from_days_day (z : Z) :
  1 <= (civil_from_days z).2
  <= days_in_month (civil_from_days z).1.1 (civil_from_days z).1.2.
Proof.
  unfold civil_from_days. cbv zeta.
  set (era := (z + 719468) / 146097).
  set (doe := z + 719468 - era * 146097).
  assert (Hdoe : 0 <= doe <= 146096) by (subst doe era; Z.div_mod_to_equations; lia).
  set (yoe := (doe - doe / 1460 + doe / 36524 - doe / 146096) / 365).
  set (doy := doe - (365 * yoe + yoe / 4 - yoe / 100)).
  assert (Hy : 0 <= yoe <= 399 /\ 0 <= doy <= 365)
    by (subst doy yoe; Z.div_mod_to_equations; lia).
  set (mp := (5 * doy + 2) / 153).
  assert (Hmp : 0 <= mp <= 11) by (subst mp; Z.div_mod_to_equations; lia).
  set (d := doy - (153 * mp + 2) / 5 + 1).
  assert (Hd : 1 <= d <= 31) by (subst d mp; Z.div_mod_to_equations; lia).
  assert (H30 : mp = 1 \/ mp = 3 \/ mp = 6 \/ mp = 8 -> d <= 30)
    by (subst d mp; Z.div_mod_to_equations; lia).
  assert (Hfeb : mp = 11 -> d <= 29) by (subst d mp; Z.div_mod_to_equations; lia).
  assert (Hleap : mp = 11 -> d = 29 ->
                  (yoe + 1) mod 4 = 0 /\ ((yoe + 1) mod 100 <> 0 \/ yoe = 399))
    by (subst d mp doy yoe; Z.div_mod_to_equations; lia).
  simpl.
  split; [lia|].
  unfold days_in_month, is_leap.
  destruct (Z.ltb_spec mp 10) as [Hlt | Hge].
  - destruct (Z.leb_spec (mp + 3) 2); [lia|].
    destruct (Z.eqb_spec (mp + 3) 2); [lia|].
    destruct (Z.eqb_spec (mp + 3) 4); destruct (Z.eqb_spec (mp + 3) 6);
      destruct (Z.eqb_spec (mp + 3) 9); destruct (Z.eqb_spec (mp + 3) 11);
      cbn [orb]; lia.
  - destruct (Z.leb_spec (mp - 9) 2); [|lia].
    destruct (Z.eqb_spec (mp - 9) 2) as [Hm | Hm].
    + assert (Hmp11 : mp = 11) by lia. specialize (Hfeb Hmp11). specialize (Hleap Hmp11).
      destruct (Z.eqb_spec ((yoe + era * 400 + 1) mod 4) 0) as [H4 | H4];
      destruct (Z.eqb_spec ((yoe + era * 400 + 1) mod 100) 0) as [H100 | H100];
      destruct (Z.eqb_spec ((yoe + era * 400 + 1) mod 400) 0) as [H400 | H400];
      cbn [andb orb negb]; try lia;
      (assert (d <> 29); [|lia]); intros Hd29; specialize (Hleap Hd29);
      revert H4 H100 H400 Hleap; clear; intros; Z.div_mod_to_equations; lia.
    + destruct (Z.eqb_spec (mp - 9) 4); destruct (Z.eqb_spec (mp - 9) 6);
        destruct (Z.eqb_spec (mp - 9) 9); destruct (Z.eqb_spec (mp - 9) 11);
        cbn [orb]; lia.
Qed.

(** [days_from_civil] undoes [civil_from_days]. *)
Lemma days_from_civil_of_days (z : Z) :
  days_from_civil (civil_from_days z).1.1 (civil_from_days z).1.2 (civil_from_days z).2 = z.
Proof.
  unfold civil_from_days. cbv zeta.
  set (era := (z + 719468) / 146097).
  set (doe := z + 719468 - era * 146097).
  assert (Hdoe : 0 <= doe <= 146096) by (subst doe era; Z.div_mod_to_equations; lia).
  set (yoe := (doe - doe / 1460 + doe / 36524 - doe / 146096) / 365).
  set (doy := doe - (365 * yoe + yoe / 4 - yoe / 100)).
  assert (Hy : 0 <= yoe <= 399 /\ 0 <= doy <= 365)
    by (subst doy yoe; Z.div_mod_to_equations; lia).
  set (mp := (5 * doy + 2) / 153).
  assert (Hmp : 0 <= mp <= 11) by (subst mp; Z.div_mod_to_equations; lia).
  simpl. unfold days_from_civil.
  destruct (Z.ltb_spec mp 10).
  - destruct (Z.leb_spec (mp + 3) 2); [lia|].
    destruct (Z.ltb_spec 2 (mp + 3)); [|lia].
    replace (yoe + era * 400 + 0) with (yoe + era * 400) by lia.
    replace ((yoe + era * 400) / 400) with era by (Z.div_mod_to_equations; lia).
    replace (mp + 3 - 3) with mp by lia.
    replace (yoe + era * 400 - era * 400) with yoe by lia.
    subst doy. lia.
  - destruct (Z.leb_spec (mp - 9) 2); [|lia].
    destruct (Z.ltb_spec 2 (mp - 9)); [lia|].
    replace (yoe + era * 400 + 1 - 1) with (yoe + era * 400) by lia.
    replace ((yoe + era * 400) / 400) with era by (Z.div_mod_to_equations; lia).
    replace (mp - 9 + 9) with mp by lia.
    replace (yoe + era * 400 - era * 400) with yoe by lia.
    subst doy. lia.
Qed.

Lemma days_in_month_le (y m : Z) : days_in_month y m <= 31.
Proof.
  unfold days_in_month.
  destruct (m =? 2); [destruct (is_leap y); lia|].
  destruct ((m =? 4) || (m =? 6) || (m =? 9) || (m =? 11)); lia.
Qed.

Lemma fields_of_in_range (t : Z) :
  valid_time t ->
  in_range (fields_of t) = true /\ -272000 <= year (fields_of t) <= 276000.
Proof.
  unfold valid_time. intros Ht.
  assert (Hdays : -100000000 <= t / msPerDay <= 100000000)
    by (unfold msPerDay; Z.div_mod_to_equations; lia).
  destruct (civil_from_days_bounds _ Hdays) as (Hm & Hy).
  pose proof (civil_from_days_day (t / msPerDay)) as Hd.
  unfold fields_of. destruct (civil_from_days (t / msPerDay)) as [[y m] d]. simpl in *.
  split; [|exact Hy].
  unfold in_range. simpl.
  assert (Hr : 0 <= t mod msPerDay < 86400000) by (apply Z.mod_pos_bound; reflexivity).
  repeat (apply andb_true_intro; split); apply Z.leb_le;
    try lia; Z.div_mod_to_equations; lia.
Qed.

(** The fields of a time stand for that time. *)
Lemma time_of_fields (t : Z) : time_of (fields_of t) = t.
Proof.
  pose proof (days_from_civil_of_days (t / msPerDay)) as Hdays.
  unfold time_of, fields_of.
  destruct (civil_from_days (t / msPerDay)) as [[y m] d]. simpl in *.
  rewrite Hdays. unfold msPerDay. Z.div_mod_to_equations. lia.
Qed.

Lemma digit_val_char (d : Z) : 0 <= d <= 9 -> digit_val (digit_char d) = Some d.
Proof.
  intros H.
  assert (Hc : d = 0 \/ d = 1 \/ d = 2 \/ d = 3 \/ d = 4 \/ d = 5 \/ d = 6 \/ d = 7
               \/ d = 8 \/ d = 9) by lia.
  repeat (destruct Hc as [-> | Hc]; [reflexivity|]). subst d. reflexivity.
Qed.

Lemma digit_char_not_sign (d : Z) :
  0 <= d <= 9 ->
  Ascii.eqb (digit_char d) "+" = false /\ Ascii.eqb (digit_char d) "-" = false.
Proof.
  intros H.
  assert (Hc : d = 0 \/ d = 1 \/ d = 2 \/ d = 3 \/ d = 4 \/ d = 5 \/ d = 6 \/ d = 7
               \/ d = 8 \/ d = 9) by lia.
  repeat (destruct Hc as [-> | Hc]; [split; reflexivity|]). subst d. split; reflexivity.
Qed.

Lemma append_cons (c : ascii) (s rest : string) :
  String c s +:+ rest = String c (s +:+ rest).
Proof. reflexivity. Qed.

Lemma read_digits_digits (w : nat) (acc n : Z) (rest : string) :
  0 <= n < 10 ^ Z.of_nat w ->
  read_digits w acc (digits w n +:+ rest) = Some (acc * 10 ^ Z.of_nat w + n, rest).
Proof.
  revert acc n. induction w as [|w IH]; intros acc n Hn.
  - simpl in *. f_equal. f_equal. lia.
  - rewrite Nat2Z.inj_succ, Z.pow_succ_r in Hn by lia.
    assert (Hpos : 0 < 10 ^ Z.of_nat w) by (apply Z.pow_pos_nonneg; lia).
    assert (Hq : 0 <= n / 10 ^ Z.of_nat w <= 9).
    { split; [apply Z.div_pos; lia|].
      assert (n / 10 ^ Z.of_nat w < 10); [|lia].
      apply Z.div_lt_upper_bound; lia. }
    cbn [digits]. rewrite append_cons. cbn [read_digits].
    rewrite (digit_val_char _ Hq), IH by (apply Z.mod_pos_bound; exact Hpos).
    f_equal. f_equal.
    rewrite Nat2Z.inj_succ, Z.pow_succ_r by lia.
    pose proof (Z.div_mod n (10 ^ Z.of_nat w)). lia.
Qed.

Lemma expect_append (c : ascii) (rest : string) :
  expect c (String c EmptyString +:+ rest) = Some rest.
Proof.
  rewrite append_cons. unfold expect. rewrite Ascii.eqb_refl. reflexivity.
Qed.

Lemma read_year_string (y : Z) (rest : string) :
  -999999 <= y <= 999999 ->
  read_year (year_string y +:+ rest) = Some (y, rest).
Proof.
  intros Hy. unfold year_string.
  destruct (Z.leb_spec 0 y) as [Hnn|Hneg]; [destruct (Z.leb_spec y 9999) as [Hsmall|Hbig]|];
    cbn [andb].
  - assert (Hq : 0 <= y / 10 ^ Z.of_nat 3 <= 9)
      by (change (10 ^ Z.of_nat 3) with 1000; Z.div_mod_to_equations; lia).
    destruct (digit_char_not_sign _ Hq) as [Hplus Hminus].
    assert (Hread := read_digits_digits 4 0 y rest).
    cbn [digits] in *. rewrite append_cons in *. unfold read_year.
    rewrite Hplus, Hminus, Hread by (change (10 ^ Z.of_nat 4) with 10000; lia).
    reflexivity.
  - destruct (Z.ltb_spec y 0); [lia|].
    change ("+" +:+ digits 6 (Z.abs y)) with (String "+" (digits 6 (Z.abs y))).
    rewrite append_cons. unfold read_year. cbn [Ascii.eqb Bool.eqb].
    rewrite read_digits_digits by (change (10 ^ Z.of_nat 6) with 1000000; lia).
    f_equal. f_equal. lia.
  - destruct (Z.ltb_spec y 0); [|lia].
    change ("-" +:+ digits 6 (Z.abs y)) with (String "-" (digits 6 (Z.abs y))).
    rewrite append_cons. unfold read_year. cbn [Ascii.eqb Bool.eqb].
    rewrite read_digits_digits by (change (10 ^ Z.of_nat 6) with 1000000; lia).
    cbn [mbind option_bind]. f_equal. f_equal. lia.
Qed.

Lemma parse_format (f : Fields) :
  -999999 <= year f <= 999999 ->
  in_range f = true ->
  parse (format f) = Some f.
Proof.
  intros Hy Hr. unfold in_range in Hr.
  pose proof (days_in_month_le (year f) (month f)) as Hmonth.
  repeat (apply andb_prop in Hr as [Hr ?]).
  repeat match goal with
         | H : (_ <=? _) = true |- _ => apply Z.leb_le in H
         end.
  unfold parse, format.
  rewrite (read_year_string _ _ Hy). cbn [mbind option_bind].
  repeat first
    [ rewrite expect_append; cbn [mbind option_bind]
    | rewrite read_digits_digits
        by (first [ change (10 ^ Z.of_nat 2) with 100
                  | change (10 ^ Z.of_nat 3) with 1000 ]; lia);
      cbn [mbind option_bind] ].
  destruct f; reflexivity.
Qed.

(** The time stamp of every valid time reads back as a date of the
    calendar and a time of the day that stand for that very time. *)
Lemma toISOString_parses (t : Z) :
  valid_time t ->
  exists f : Fields,
    parse (toISOString t) = Some f /\ in_range f = true /\ time_of f = t.
Proof.
  intros Ht. destruct (fields_of_in_range t Ht) as [Hr Hy].
  exists (fields_of t).
  split; [apply parse_format; [lia | exact Hr]|].
  split; [exact Hr | apply time_of_fields].
Qed.

End DateTimeFacts.

Example toISOString_epoch : DateTime.toISOString 0 = "1970-01-01T00:00:00.000Z".
Proof. reflexivity. Qed.

Example toISOString_readme :
  DateTime.toISOString 1762905600000 = "2025-11-12T00:00:00.000Z".
Proof. reflexivity. Qed.

Example toISOString_leap_day :
  DateTime.toISOString 951868799999 = "2000-02-29T23:59:59.999Z".
Proof. reflexivity. Qed.

Example toISOString_before_epoch :
  DateTime.toISOString (-1) = "1969-12-31T23:59:59.999Z".
Proof. reflexivity. Qed.

Example toISOString_latest :
  DateTime.toISOString 8640000000000000 = "+275760-09-13T00:00:00.000Z".
Proof. reflexivity. Qed.

Example toISOString_earliest :
  DateTime.toISOString (-8640000000000000) = "-271821-04-20T00:00:00.000Z".
Proof. reflexivity. Qed.

Example is_iso8601_examples :
  DateTime.is_iso8601 "2025-11-12T00:00:00.000Z" = true
  /\ DateTime.is_iso8601 "2024-02-29T12:30:45.123Z" = true
  /\ DateTime.is_iso8601 "2025-02-29T12:30:45.123Z" = false
  /\ DateTime.is_iso8601 "2025-02-31T00:00:00.000Z" = false
  /\ DateTime.is_iso8601 "2025-11-12T24:00:00.000Z" = false
  /\ DateTime.is_iso8601 "2025-11-12 00:00:00.000Z" = false
  /\ DateTime.is_iso8601 "2025-11-12T00:00:00Z" = false
  /\ DateTime.is_iso8601 EmptyString = false.
Proof. repeat split; reflexivity. Qed.

Example time_of_readme :
  DateTime.time_of {| DateTime.year := 2025; DateTime.month := 11; DateTime.day := 12;
                      DateTime.hours := 0; DateTime.minutes := 0; DateTime.seconds := 0;
                      DateTime.millis := 0 |} = 1762905600000
  /\ DateTime.time_of {| DateTime.year := 1970; DateTime.month := 1; DateTime.day := 1;
                         DateTime.hours := 0; DateTime.minutes := 1; DateTime.seconds := 2;
                         DateTime.millis := 3 |} = 62003.
Proof. split; reflexivity. Qed.

(** ** The compute handler *)

Lemma JSON_stringify_two (k1 v1 k2 v2 : string) :
  JSON_stringify [(k1, v1); (k2, v2)]
  = let q := String "034"%char EmptyString in
    "{" +:+ q +:+ k1 +:+ q +:+ ":" +:+ q +:+ v1 +:+ q +:+ ","
        +:+ q +:+ k2 +:+ q +:+ ":" +:+ q +:+ v2 +:+ q +:+ "}".
Proof.
  unfold JSON_stringify, JsonText.object, JsonText.field, JsonText.quoted, JsonText.dq.
  cbn [fmap list_fmap JsonText.sep_by fst snd]. cbv zeta.
  rewrite !append_assoc. reflexivity.
Qed.

(** C5. For every event, empty or malformed ones included, and every
    clock value a [Date] can hold, the handler returns status 200, the
    headers Access-Control-Allow-Origin: * and Content-Type:
    application/json, and as body the JSON text of an object whose
    [message] is the fixed greeting Hello from Lambda! and whose
    [timestamp] is an ISO-8601 string for the current time: it reads as a
    date of the calendar and a time of the day that stand for the clock
    value. *)
Theorem handler_response (now : Z) (event : JSON) :
  DateTime.valid_time now ->
  exists (r : APIGatewayProxyResult) (timestamp : string) (f : DateTime.Fields),
    handler now event = Returned r
    /\ statusCode r = 200
    /\ ("Access-Control-Allow-Origin", "*") ∈ headers r
    /\ ("Content-Type", "application/json") ∈ headers r
    /\ (let q := String "034"%char EmptyString in
        body r = "{" +:+ q +:+ "message" +:+ q +:+ ":" +:+ q +:+ "Hello from Lambda!" +:+ q
                     +:+ "," +:+ q +:+ "timestamp" +:+ q +:+ ":" +:+ q +:+ timestamp +:+ q
                     +:+ "}")
    /\ DateTime.parse timestamp = Some f
    /\ DateTime.in_range f = true
    /\ DateTime.time_of f = now.
Proof.
  intros Hnow.
  destruct (DateTimeFacts.toISOString_parses now Hnow) as (f & Hparse & Hrange & Htime).
  eexists _, (DateTime.toISOString now), f.
  split; [reflexivity|]. split; [reflexivity|].
  split; [cbn [headers]; set_solver|]. split; [cbn [headers]; set_solver|].
  split; [apply JSON_stringify_two|].
  split; [exact Hparse|]. split; [exact Hrange | exact Htime].
Qed.

Lemma handler_response_witness :
  DateTime.valid_time 1762905600000
  /\ exists r : APIGatewayProxyResult,
       handler 1762905600000 JNull = Returned r
       /\ statusCode r = 200.
Proof.
  assert (Hvalid : DateTime.valid_time 1762905600000)
    by (unfold DateTime.valid_time; lia).
  split; [exact Hvalid|].
  destruct (handler_response 1762905600000 JNull Hvalid)
    as (r & ts & f & Hr & Hstatus & _).
  exists r. split; [exact Hr | exact Hstatus].
Defined.

Example handler_body_readme :
  exists r : APIGatewayProxyResult,
    handler 1762905600000 (JObject [("httpMethod", JString "GET")]) = Returned r
    /\ body r
       = (let q := String "034"%char EmptyString in
          "{" +:+ q +:+ "message" +:+ q +:+ ":" +:+ q +:+ "Hello from Lambda!" +:+ q
              +:+ "," +:+ q +:+ "timestamp" +:+ q +:+ ":" +:+ q
              +:+ "2025-11-12T00:00:00.000Z" +:+ q +:+ "}").
Proof. eexists. split; reflexivity. Qed.

(** C6. The handler is total and blind to the request: for every clock
    value and every event it returns a response and never throws, and two
    events, however malformed, get the same response at the same clock
    value. *)
Theorem handler_total_and_event_independent (now : Z) (event1 event2 : JSON) :
  (exists r : APIGatewayProxyResult, handler now event1 = Returned r)
  /\ (forall message : string, handler now event1 <> Threw message)
  /\ handler now event1 = handler now event2.
Proof.
  split; [eexists; reflexivity|]. split; [discriminate | reflexivity].
Qed.

Example handler_ignores_malformed_event :
  handler 0 JNull = handler 0 (JArray [JNumber (-1); JObject [("body", JBool true)]]).
Proof. reflexivity. Qed.
